(** * HazardX — MHEWS backend ([app.py])

    A shallow embedding of the Flask backend: the SMS cooldown and dispatch
    helpers, the sensor-triggered SMS checks, the weekly risk summary and
    the operator alert routes, followed by the properties proved of them.

    Conventions of the embedding.
    - A Python [str] is a [string] (a byte string; the texts handled here
      are ASCII, apart from message literals that are copied verbatim).
    - A [datetime] is the number of microseconds since 1970-01-01T00:00:00
      (naive UTC, proleptic Gregorian calendar).  Documents keep the
      instant; wherever the program stores, slices or compares the
      [isoformat()] text of a datetime, the embedding applies [isoformat]
      and works on the text, as Python and MongoDB do.  That these texts
      order as their instants is proved ([isoformat_compare]).
    - The signals of a sensor reading are integers, and the values of the
      string fields of a posted alert are strings.
    - MongoDB collections are lists of documents in insertion order; the
      [_id] of a document is drawn from a counter that only grows.  The
      database itself never fails.
    - The clock, the Twilio gateway, the classifier and the environment
      variables are inputs of the program: they are gathered in a record
      [env]; the clock and the gateway are indexed by the number of
      earlier calls, so that every call may answer differently.  The
      state [world] holds the three collections, the two call counters
      and the trace of the gateway calls; functions with effects take a
      [world] and return the next one. *)

From Stdlib Require Import ZArith String Ascii List Lia Bool Sorted.
From stdpp Require Import base option list gmap strings pretty.

#[local] Open Scope Z_scope.

(** ** Text helpers (the [str] methods the program uses) *)

(** [needle in s] for two strings. *)
Fixpoint str_contains (needle s : string) : bool :=
  String.prefix needle s ||
  match s with
  | EmptyString => false
  | String _ s' => str_contains needle s'
  end.

(** [s[:n]] *)
Definition str_take (n : nat) (s : string) : string := String.substring 0 n s.

(** [s.replace(a, b)] for one-character [a] and [b]. *)
Fixpoint str_replace_char (a b : ascii) (s : string) : string :=
  match s with
  | EmptyString => EmptyString
  | String c s' =>
      String (if Ascii.eqb c a then b else c) (str_replace_char a b s')
  end.

Definition ascii_upper (c : ascii) : ascii :=
  let n := nat_of_ascii c in
  if (97 <=? n)%nat && (n <=? 122)%nat then ascii_of_nat (n - 32) else c.

(** [s.upper()] on ASCII text. *)
Fixpoint str_upper (s : string) : string :=
  match s with
  | EmptyString => EmptyString
  | String c s' => String (ascii_upper c) (str_upper s')
  end.

Fixpoint str_repeat (c : ascii) (n : nat) : string :=
  match n with
  | O => EmptyString
  | S n' => String c (str_repeat c n')
  end.

(** [s.zfill(width)]: zeros go after a leading sign. *)
Definition zfill (width : nat) (s : string) : string :=
  let pad := str_repeat "0"%char (width - String.length s) in
  match s with
  | String c s' =>
      if Ascii.eqb c "-"%char || Ascii.eqb c "+"%char
      then String c (pad +:+ s')
      else pad +:+ s
  | EmptyString => pad
  end.

(** [str(n)] for an [int]. *)
Definition str_of_int (n : Z) : string := pretty n.

(** Truthiness of a string: [not s] is [s == ""]. *)
Definition str_truthy (s : string) : bool :=
  match s with EmptyString => false | _ => true end.

(** [a >= b] on strings, as MongoDB's [$gte] compares them. *)
Definition str_ge (a b : string) : bool :=
  match String.compare a b with Lt => false | _ => true end.

(** ** Dates and times *)

Definition datetime := Z.

Definition timedelta_minutes (m : Z) : Z := m * 60000000.
Definition timedelta_days (d : Z) : Z := d * 86400000000.

Definition digit_char (d : Z) : ascii := ascii_of_nat (48 + Z.to_nat d).

(** The [w] low decimal digits of [n], most significant first: what
    ["%0wd" % n] prints for [0 <= n < 10^w]. *)
Fixpoint zero_pad (w : nat) (n : Z) : string :=
  match w with
  | O => EmptyString
  | S w' =>
      String (digit_char ((n / 10 ^ Z.of_nat w') mod 10)) (zero_pad w' n)
  end.

(** The proleptic Gregorian calendar, in eras of 400 years (146097 days)
    that start on a 1st of March: [doe] is the day of the era, [yoe] the
    year of the era, [doy] the day of that year, [mp] the month counted
    from March. *)
Definition yoe_of (doe : Z) : Z :=
  (doe - doe / 1460 + doe / 36524 - doe / 146096) / 365.

Definition year_start (yoe : Z) : Z := 365 * yoe + yoe / 4 - yoe / 100.

Definition doy_of (doe : Z) : Z := doe - year_start (yoe_of doe).

Definition mp_of (doy : Z) : Z := (5 * doy + 2) / 153.

Definition dom_of (doy : Z) : Z := doy - (153 * mp_of doy + 2) / 5 + 1.

Definition civil_of_doe (doe : Z) : Z * Z * Z :=
  let mp := mp_of (doy_of doe) in
  if mp <? 10 then (yoe_of doe, mp + 3, dom_of (doy_of doe))
  else (yoe_of doe + 1, mp - 9, dom_of (doy_of doe)).

(** Day number (days since 1970-01-01) to year, month, day. *)
Definition civil_from_days (z : Z) : Z * Z * Z :=
  let s := z + 719468 in
  let '(y, m, d) := civil_of_doe (s mod 146097) in
  (y + 400 * (s / 146097), m, d).

Definition date_of (t : datetime) : Z := t / 86400000000.
Definition time_of (t : datetime) : Z := t mod 86400000000.

Definition dt_year (t : datetime) : Z := (civil_from_days (date_of t)).1.1.
Definition dt_month (t : datetime) : Z := (civil_from_days (date_of t)).1.2.
Definition dt_day (t : datetime) : Z := (civil_from_days (date_of t)).2.
Definition dt_hour (t : datetime) : Z := time_of t / 3600000000.
Definition dt_minute (t : datetime) : Z := (time_of t / 60000000) mod 60.
Definition dt_second (t : datetime) : Z := (time_of t / 1000000) mod 60.
Definition dt_microsecond (t : datetime) : Z := t mod 1000000.

(** [t.strftime("%Y-%m-%d")] *)
Definition strftime_Ymd (t : datetime) : string :=
  zero_pad 4 (dt_year t) +:+ "-" +:+ zero_pad 2 (dt_month t) +:+ "-"
  +:+ zero_pad 2 (dt_day t).

(** [t.isoformat()]: the fraction is printed only when it is not zero. *)
Definition isoformat (t : datetime) : string :=
  strftime_Ymd t +:+ "T" +:+ zero_pad 2 (dt_hour t) +:+ ":"
  +:+ zero_pad 2 (dt_minute t) +:+ ":" +:+ zero_pad 2 (dt_second t)
  +:+ (if dt_microsecond t =? 0 then ""
       else "." +:+ zero_pad 6 (dt_microsecond t)).

(** [t.strftime("%a")] in the C locale; 1970-01-01 was a Thursday. *)
Definition strftime_a (t : datetime) : string :=
  match (date_of t + 3) mod 7 with
  | 0 => "Mon" | 1 => "Tue" | 2 => "Wed" | 3 => "Thu"
  | 4 => "Fri" | 5 => "Sat" | _ => "Sun"
  end.

(** [t.replace(hour=0, minute=0, second=0, microsecond=0)] *)
Definition midnight (t : datetime) : datetime := timedelta_days (date_of t).

(** The instants a Python [datetime] can hold: years 1 to 9999. *)
Definition DATETIME_MIN : datetime := -62135596800000000.
Definition DATETIME_END : datetime := 253402300800000000.
Definition valid_datetime (t : datetime) : Prop :=
  DATETIME_MIN <= t < DATETIME_END.

(** ** Configuration tables *)

Definition SMS_COOLDOWN_MINUTES : gmap string Z :=
  list_to_map
    [("FLOOD", 30); ("FIRE", 20); ("AIR", 60); ("RAIN", 30);
     ("RISK_HIGH", 15); ("MANUAL", 0)].

Record cutoffs := { warn : Z; critical : Z }.

#[global] Instance cutoffs_inhabited : Inhabited cutoffs :=
  populate {| warn := 0; critical := 0 |}.

Definition THRESHOLDS : gmap string cutoffs :=
  list_to_map
    [("distance", {| warn := 100; critical := 50 |});
     ("rain_level", {| warn := 70; critical := 90 |});
     ("air_quality", {| warn := 150; critical := 250 |});
     ("temperature", {| warn := 40; critical := 45 |});
     ("soil_moisture", {| warn := 80; critical := 95 |})].

(** ** Documents and the state of the process *)

(** A sensor reading: the numeric signals of the JSON body, and the two
    keys [receive_sensor_data] adds.  Signals are integers. *)
Record sensor_data := {
  signals : gmap string Z;
  timestamp : option datetime;
  risk : option string;
}.

(** One entry of [sms_log]. *)
Record sms_doc := {
  sms_oid : nat;
  sms_alert_type : string;
  sms_message : string;
  sms_recipients : list string;
  sms_twilio_sid : string;
  sms_sent_at : datetime;
}.

(** One entry of [alerts]. *)
Record alert_doc := {
  al_oid : nat;
  al_id : string;
  al_type : string;
  al_severity : string;
  al_location : string;
  al_message : string;
  al_channels : list string;
  al_status : string;
  al_timestamp : datetime;
  al_resolved_at : option datetime;
}.

(** What [twilio_client.messages.create] does: it returns a message with
    its [sid] and [status], or raises. *)
Inductive gw_reply :=
| Accepted (sid status : string)
| Raised (err : string).

(** One call of [twilio_client.messages.create]. *)
Record gw_call := { call_body : string; call_from : string; call_to : string }.

Record world := {
  collection : list (nat * sensor_data);
  alerts_collection : list alert_doc;
  sms_log_collection : list sms_doc;
  next_oid : nat;
  clock_reads : nat;
  gateway_calls : list gw_call;
}.

Definition empty_world : world :=
  {| collection := []; alerts_collection := []; sms_log_collection := [];
     next_oid := 0; clock_reads := 0; gateway_calls := [] |}.

(** The inputs of the process: environment variables, the clock
    ([utcnow_at k] is what the call number [k] of [datetime.utcnow()]
    returns), the gateway (likewise numbered) and the classifier
    ([None] when [model.predict] raises). *)
Record env := {
  ALERT_RECIPIENTS : list string;
  TWILIO_FROM_NUMBER : string;
  utcnow_at : nat -> datetime;
  twilio_at : nat -> gw_call -> gw_reply;
  model_predict : gmap string Z -> option Z;
}.

Definition set_sms_log (l : list sms_doc) (w : world) : world :=
  {| collection := collection w; alerts_collection := alerts_collection w;
     sms_log_collection := l; next_oid := next_oid w;
     clock_reads := clock_reads w; gateway_calls := gateway_calls w |}.

Definition set_alerts (l : list alert_doc) (w : world) : world :=
  {| collection := collection w; alerts_collection := l;
     sms_log_collection := sms_log_collection w; next_oid := next_oid w;
     clock_reads := clock_reads w; gateway_calls := gateway_calls w |}.

Definition set_collection (l : list (nat * sensor_data)) (w : world) : world :=
  {| collection := l; alerts_collection := alerts_collection w;
     sms_log_collection := sms_log_collection w; next_oid := next_oid w;
     clock_reads := clock_reads w; gateway_calls := gateway_calls w |}.

(** A fresh [_id]. *)
Definition fresh_oid (w : world) : nat * world :=
  (next_oid w,
   {| collection := collection w; alerts_collection := alerts_collection w;
      sms_log_collection := sms_log_collection w; next_oid := S (next_oid w);
      clock_reads := clock_reads w; gateway_calls := gateway_calls w |}).

(** An HTTP answer: the status code and, abstractly, its body. *)
Inductive response (A : Type) :=
| Ok (code : Z) (body : A)
| Err (code : Z) (error : string).
Arguments Ok {A} code body.
Arguments Err {A} code error.

Section Backend.
Context (E : env).

(** [datetime.utcnow()] *)
Definition utcnow (w : world) : datetime * world :=
  (utcnow_at E (clock_reads w),
   {| collection := collection w; alerts_collection := alerts_collection w;
      sms_log_collection := sms_log_collection w; next_oid := next_oid w;
      clock_reads := S (clock_reads w); gateway_calls := gateway_calls w |}).

(** [twilio_client.messages.create(body=, from_=, to=)] *)
Definition messages_create (body from_ to : string) (w : world)
  : gw_reply * world :=
  let c := {| call_body := body; call_from := from_; call_to := to |} in
  (twilio_at E (length (gateway_calls w)) c,
   {| collection := collection w; alerts_collection := alerts_collection w;
      sms_log_collection := sms_log_collection w; next_oid := next_oid w;
      clock_reads := clock_reads w;
      gateway_calls := gateway_calls w ++ [c] |}).

(** ** SMS core helpers *)

(** The filter of the [find_one] query of [_is_on_cooldown]. *)
Definition cooldown_query (alert_type cutoff : string) (d : sms_doc) : bool :=
  String.eqb (sms_alert_type d) alert_type
  && str_ge (isoformat (sms_sent_at d)) cutoff.

Definition _is_on_cooldown (alert_type : string) (w : world) : bool * world :=
  let cooldown_mins := default 30 (SMS_COOLDOWN_MINUTES !! alert_type) in
  if cooldown_mins =? 0 then (false, w)
  else
    let '(now, w) := utcnow w in
    let cutoff := isoformat (now - timedelta_minutes cooldown_mins) in
    (match find (cooldown_query alert_type cutoff) (sms_log_collection w) with
     | Some _ => true
     | None => false
     end, w).

Definition _log_sms (alert_type message : string) (recipients : list string)
    (sid : string) (w : world) : world :=
  let '(now, w) := utcnow w in
  let '(oid, w) := fresh_oid w in
  set_sms_log
    (sms_log_collection w ++
     [{| sms_oid := oid; sms_alert_type := alert_type;
         sms_message := message; sms_recipients := recipients;
         sms_twilio_sid := sid; sms_sent_at := now |}]) w.

(** One element of ["results"]. *)
Record delivery := { dl_to : string; dl_sid : string; dl_status : string }.

(** The dict [send_sms_alert] returns: [{"sent": True, "count", "results"}]
    or [{"sent": False, "reason"}]. *)
Inductive sms_result :=
| Sent (count : nat) (results : list delivery)
| NotSent (reason : string).

(** The [for number in recipients] loop; [inl e] when [create] raised [e]. *)
Fixpoint send_loop (message : string) (recipients : list string)
    (results : list delivery) (last_sid : option string) (w : world)
  : (string + list delivery * option string) * world :=
  match recipients with
  | [] => (inr (results, last_sid), w)
  | number :: rest =>
      if negb (str_truthy number) || str_contains "XXXXXXXXXX" number
      then send_loop message rest results last_sid w
      else
        match messages_create message (TWILIO_FROM_NUMBER E) number w with
        | (Raised e, w) => (inl e, w)
        | (Accepted sid status, w) =>
            send_loop message rest
              (results ++
               [{| dl_to := number; dl_sid := sid; dl_status := status |}])
              (Some sid) w
        end
  end.

Definition send_sms_alert (alert_type message : string)
    (recipients : option (list string)) (w : world) : sms_result * world :=
  let recipients := default (ALERT_RECIPIENTS E) recipients in
  let '(cooling, w) := _is_on_cooldown alert_type w in
  if cooling then (NotSent "cooldown", w)
  else
    match send_loop message recipients [] None w with
    | (inr (results, last_sid), w) =>
        if str_truthy (default "" last_sid)
        then
          let w := _log_sms alert_type message recipients
                     (default "" last_sid) w in
          (Sent (length results) results, w)
        else (NotSent "no valid recipients", w)
    | (inl e, w) => (NotSent e, w)
    end.

(** ** Automatic SMS from sensor readings *)

Definition nl : string := String (ascii_of_nat 10) EmptyString.

(** The message texts of [check_and_send_sensor_sms], one per call of
    [send_sms_alert]. *)
Definition flood_critical_text (distance : Z) (ts_fmt : string) : string :=
  "MHEWS CRITICAL FLOOD ALERT" +:+ nl
  +:+ "Water sensor: " +:+ str_of_int distance +:+ "cm (DANGER LEVEL)" +:+ nl
  +:+ "Immediate evacuation may be required." +:+ nl
  +:+ "Time: " +:+ ts_fmt.

Definition flood_warning_text (distance : Z) (ts_fmt : string) : string :=
  "MHEWS Flood Warning" +:+ nl
  +:+ "Water rising. Distance: " +:+ str_of_int distance +:+ "cm." +:+ nl
  +:+ "Monitor closely and prepare to evacuate." +:+ nl
  +:+ "Time: " +:+ ts_fmt.

Definition rain_critical_text (rain : Z) (ts_fmt : string) : string :=
  "MHEWS Heavy Rain CRITICAL" +:+ nl
  +:+ "Rain sensor: " +:+ str_of_int rain +:+ "/100" +:+ nl
  +:+ "Flash flood risk. Move to higher ground." +:+ nl
  +:+ "Time: " +:+ ts_fmt.

Definition rain_advisory_text (rain : Z) (ts_fmt : string) : string :=
  "MHEWS Rain Advisory" +:+ nl
  +:+ "Rain intensity: " +:+ str_of_int rain +:+ "/100 (HIGH)" +:+ nl
  +:+ "Avoid low-lying areas." +:+ nl
  +:+ "Time: " +:+ ts_fmt.

Definition air_critical_text (air : Z) (ts_fmt : string) : string :=
  "MHEWS Air Quality CRITICAL" +:+ nl
  +:+ "AQI: " +:+ str_of_int air +:+ " PPM — Hazardous." +:+ nl
  +:+ "Stay indoors. Wear masks immediately." +:+ nl
  +:+ "Time: " +:+ ts_fmt.

Definition air_warning_text (air : Z) (ts_fmt : string) : string :=
  "MHEWS Air Quality Warning" +:+ nl
  +:+ "AQI: " +:+ str_of_int air +:+ " PPM — Unhealthy." +:+ nl
  +:+ "Limit outdoor exposure." +:+ nl
  +:+ "Time: " +:+ ts_fmt.

Definition fire_critical_text (temperature : Z) (ts_fmt : string) : string :=
  "MHEWS Extreme Heat / Fire Risk" +:+ nl
  +:+ "Temperature: " +:+ str_of_int temperature +:+ "C (CRITICAL)" +:+ nl
  +:+ "Extreme fire danger conditions." +:+ nl
  +:+ "Time: " +:+ ts_fmt.

Definition heat_warning_text (temperature : Z) (ts_fmt : string) : string :=
  "MHEWS Heat Warning" +:+ nl
  +:+ "Temperature: " +:+ str_of_int temperature +:+ "C (HIGH)" +:+ nl
  +:+ "High fire risk. Stay alert." +:+ nl
  +:+ "Time: " +:+ ts_fmt.

Definition risk_high_text (temperature rain distance air : Z)
    (ts_fmt : string) : string :=
  "MHEWS SYSTEM ALERT — HIGH RISK" +:+ nl
  +:+ "ML model predicts HIGH hazard risk." +:+ nl
  +:+ "Temp:" +:+ str_of_int temperature +:+ "C Rain:" +:+ str_of_int rain
  +:+ " Water:" +:+ str_of_int distance +:+ "cm AQI:" +:+ str_of_int air +:+ nl
  +:+ "Time: " +:+ ts_fmt.

Definition get_signal (d : sensor_data) (key : string) (dflt : Z) : Z :=
  default dflt (signals d !! key).

(** The body of [check_and_send_sensor_sms] after [ts] has been read,
    over any state [S] and any way [send] of handling a call
    [send_sms_alert(alert_type, message)]. *)
Definition sensor_checks {S : Type} (send : string -> string -> S -> S)
    (d : sensor_data) (risk ts : string) (s : S) : S :=
  let distance := get_signal d "distance" 999 in
  let rain := get_signal d "rain_level" 0 in
  let air := get_signal d "air_quality" 0 in
  let temperature := get_signal d "temperature" 0 in
  let ts_fmt := str_replace_char "T" " " (str_take 19 ts) +:+ " UTC" in
  (* Flood / water level *)
  let s :=
    if distance <=? critical (THRESHOLDS !!! "distance")
    then send "FLOOD" (flood_critical_text distance ts_fmt) s
    else if distance <=? warn (THRESHOLDS !!! "distance")
    then send "FLOOD" (flood_warning_text distance ts_fmt) s
    else s in
  (* Heavy rain *)
  let s :=
    if rain >=? critical (THRESHOLDS !!! "rain_level")
    then send "RAIN" (rain_critical_text rain ts_fmt) s
    else if rain >=? warn (THRESHOLDS !!! "rain_level")
    then send "RAIN" (rain_advisory_text rain ts_fmt) s
    else s in
  (* Air quality *)
  let s :=
    if air >=? critical (THRESHOLDS !!! "air_quality")
    then send "AIR" (air_critical_text air ts_fmt) s
    else if air >=? warn (THRESHOLDS !!! "air_quality")
    then send "AIR" (air_warning_text air ts_fmt) s
    else s in
  (* Temperature / fire risk *)
  let s :=
    if temperature >=? critical (THRESHOLDS !!! "temperature")
    then send "FIRE" (fire_critical_text temperature ts_fmt) s
    else if temperature >=? warn (THRESHOLDS !!! "temperature")
    then send "FIRE" (heat_warning_text temperature ts_fmt) s
    else s in
  (* Classifier says HIGH *)
  if String.eqb risk "HIGH"
  then send "RISK_HIGH" (risk_high_text temperature rain distance air ts_fmt) s
  else s.

(** Every call uses the default recipients and its answer is dropped. *)
Definition check_and_send_sensor_sms (d : sensor_data) (risk : string)
    (w : world) : world :=
  (* the default of [.get("timestamp", ...)] is evaluated in any case *)
  let '(now, w) := utcnow w in
  let ts := isoformat (default now (timestamp d)) in
  sensor_checks
    (fun alert_type message w => (send_sms_alert alert_type message None w).2)
    d risk ts w.

(** ** Risk evaluation and the sensor route *)

(** [model.predict] works on floating-point features built from the
    reading; it is an input of the program ([model_predict]). *)
Definition evaluate_risk (d : gmap string Z) : string :=
  match model_predict E d with
  | Some 0 => "LOW"
  | Some 1 => "MEDIUM"
  | Some 2 => "HIGH"
  | _ => "UNKNOWN"
  end.

(** [POST /sensor-data]; the body is the JSON object received, [None]
    when there is none. *)
Definition receive_sensor_data (body : option (gmap string Z)) (w : world)
  : response string * world :=
  match body with
  | None => (Err 400 "No JSON received", w)
  | Some data =>
      if decide (data = ∅) then (Err 400 "No JSON received", w)
      else
        let '(now, w) := utcnow w in
        let risk := evaluate_risk data in
        let doc := {| signals := data; timestamp := Some now;
                      risk := Some risk |} in
        let '(oid, w) := fresh_oid w in
        let w := set_collection (collection w ++ [(oid, doc)]) w in
        let w := check_and_send_sensor_sms doc risk w in
        (Ok 200 risk, w)
  end.

(** ** Weekly risk *)

Definition RISK_SCORE_MAP : gmap string Z :=
  list_to_map [("LOW", 1); ("MEDIUM", 2); ("HIGH", 3); ("UNKNOWN", 0)].

Definition RISK_LABEL_MAP : gmap Z string :=
  list_to_map [(1, "LOW"); (2, "MEDIUM"); (3, "HIGH"); (0, "UNKNOWN")].

Record bucket := { name : string; total_score : Z; count : Z }.

#[global] Instance bucket_inhabited : Inhabited bucket :=
  populate {| name := ""; total_score := 0; count := 0 |}.

(** [round(n / d)] for [d > 0]: the nearest integer, ties to the even
    one.  Python rounds the double nearest to [n / d]; for the scores
    and counts summed here (anything below 2^52) that double lies on the
    same side of every half-integer as the exact quotient. *)
Definition py_round_div (n d : Z) : Z :=
  let q := n / d in
  let r := n mod d in
  if 2 * r <? d then q
  else if d <? 2 * r then q + 1
  else if Z.even q then q else q + 1.

(** One element of the JSON list [weekly_risk] returns.  The ["risk"]
    number is [round(avg, 2)] of a float; the embedding keeps the exact
    average as the fraction [wr_total / wr_count] ([0] for an empty
    day). *)
Record day_risk := {
  wr_name : string;
  wr_total : Z;
  wr_label : string;
  wr_count : Z;
}.

Definition week_days : list Z := [0; 1; 2; 3; 4; 5; 6].

(** The first loop: one empty bucket per day of the week. *)
Definition init_buckets (week_start : datetime) : gmap string bucket :=
  foldl
    (fun (bs : gmap string bucket) i =>
       let day := week_start + timedelta_days i in
       <[strftime_Ymd day :=
           {| name := strftime_a day; total_score := 0; count := 0 |}]> bs)
    ∅ week_days.

(** The body of the second loop, for one document of the query. *)
Definition add_reading (bs : gmap string bucket) (doc : nat * sensor_data)
  : gmap string bucket :=
  match timestamp doc.2 with
  | None => bs
  | Some t =>
      let day_key := strftime_Ymd t in
      let score :=
        default 0 (RISK_SCORE_MAP !! default "UNKNOWN" (risk doc.2)) in
      match bs !! day_key with
      | Some b =>
          <[day_key :=
              {| name := name b; total_score := total_score b + score;
                 count := count b + 1 |}]> bs
      | None => bs
      end
  end.

(** The filter [{"timestamp": {"$gte": cutoff}}]. *)
Definition since_query (cutoff : string) (doc : nat * sensor_data) : bool :=
  match timestamp doc.2 with
  | Some t => str_ge (isoformat t) cutoff
  | None => false
  end.

(** The third loop: the entry of one bucket. *)
Definition day_entry (b : bucket) : day_risk :=
  {| wr_name := name b;
     wr_total := total_score b;
     wr_label :=
       if 0 <? count b
       then default "NONE"
              (RISK_LABEL_MAP !! py_round_div (total_score b) (count b))
       else "NONE";
     wr_count := count b |}.

Definition weekly_buckets (now : datetime) (docs : list (nat * sensor_data))
  : gmap string bucket :=
  let week_start := midnight now - timedelta_days 6 in
  foldl add_reading (init_buckets week_start)
    (filter (fun doc => since_query (isoformat week_start) doc = true) docs).

(** [GET /weekly-risk] *)
Definition weekly_risk (w : world) : list day_risk * world :=
  let '(now, w) := utcnow w in
  let week_start := midnight now - timedelta_days 6 in
  let day_buckets := weekly_buckets now (collection w) in
  (map (fun i =>
          day_entry
            (day_buckets !!! strftime_Ymd (week_start + timedelta_days i)))
       week_days, w).

(** ** Alerts *)

Definition severity_order (s : string) : nat :=
  default 4%nat
    ((list_to_map [("Critical", 0); ("High", 1); ("Moderate", 2); ("Low", 3)]%nat
        : gmap string nat) !! s).

(** A stable sort by insertion, for [list.sort] and for the cursor's
    [sort]: [x] goes before the first element it is not above. *)
Fixpoint insert_sorted {A} (le : A -> A -> bool) (x : A) (l : list A)
  : list A :=
  match l with
  | [] => [x]
  | y :: l' => if le x y then x :: l else y :: insert_sorted le x l'
  end.

Fixpoint stable_sort {A} (le : A -> A -> bool) (l : list A) : list A :=
  match l with
  | [] => []
  | x :: l' => insert_sorted le x (stable_sort le l')
  end.

(** [.sort("_id", -1)]: newest first. *)
Definition oid_desc (a b : alert_doc) : bool := (al_oid b <=? al_oid a)%nat.

(** The key of [docs.sort] in [get_alerts]. *)
Definition alert_key (d : alert_doc) : nat * nat :=
  (if String.eqb (al_status d) "Active" then 0%nat else 1%nat,
   severity_order (al_severity d)).

(** Tuples compare lexicographically. *)
Definition key_le (a b : nat * nat) : bool :=
  (a.1 <? b.1)%nat || ((a.1 =? b.1)%nat && (a.2 <=? b.2)%nat).

Definition alert_le (a b : alert_doc) : bool :=
  key_le (alert_key a) (alert_key b).

(** [GET /alerts] *)
Definition get_alerts (w : world) : list alert_doc :=
  let docs := take 100 (stable_sort oid_desc (alerts_collection w)) in
  stable_sort alert_le docs.

(** The JSON object posted to [/alerts]: its string-valued keys, and the
    ["channels"] list when present. *)
Record alert_form := {
  fields : gmap string string;
  channels : option (list string);
}.

Definition REQUIRED_FIELDS : list string :=
  ["type"; "severity"; "location"; "message"].

(** [not data.get(field)] *)
Definition field_missing (data : alert_form) (field : string) : bool :=
  negb (str_truthy (default "" (fields data !! field))).

(** What [create_alert] answers with status 201. *)
Record created := {
  cr_alert : alert_doc;
  cr_sms_result : option sms_result;
}.

(** [POST /alerts]; the body is the JSON object received, [None] when
    there is none. *)
Definition create_alert (body : option alert_form) (w : world)
  : response created * world :=
  match body with
  | None => (Err 400 "No JSON received", w)
  | Some data =>
      if decide (fields data = ∅ ∧ channels data = None)
      then (Err 400 "No JSON received", w)
      else
        match find (field_missing data) REQUIRED_FIELDS with
        | Some field => (Err 400 ("Missing field: " +:+ field), w)
        | None =>
            let count := length (alerts_collection w) in
            let '(now, w) := utcnow w in
            let year := dt_year now in
            let alert_id :=
              "AL-" +:+ str_of_int year +:+ "-"
              +:+ zfill 3 (str_of_int (Z.of_nat count + 1)) in
            let '(now', w) := utcnow w in
            let '(oid, w) := fresh_oid w in
            let alert :=
              {| al_oid := oid; al_id := alert_id;
                 al_type := default "" (fields data !! "type");
                 al_severity := default "" (fields data !! "severity");
                 al_location := default "" (fields data !! "location");
                 al_message := default "" (fields data !! "message");
                 al_channels := default [] (channels data);
                 al_status := "Active"; al_timestamp := now';
                 al_resolved_at := None |} in
            let w := set_alerts (alerts_collection w ++ [alert]) w in
            if bool_decide ("SMS" ∈ al_channels alert) then
              let sms_body :=
                "MHEWS ALERT [" +:+ str_upper (al_severity alert) +:+ "]"
                +:+ nl +:+ "Type: " +:+ al_type alert +:+ nl
                +:+ "Location: " +:+ al_location alert +:+ nl
                +:+ str_take 100 (al_message alert) +:+ nl
                +:+ "Ref: " +:+ alert_id in
              let '(r, w) := send_sms_alert "MANUAL" sms_body None w in
              (Ok 201 {| cr_alert := alert; cr_sms_result := Some r |}, w)
            else
              (Ok 201 {| cr_alert := alert; cr_sms_result := None |}, w)
        end
  end.

Definition resolved (now : datetime) (d : alert_doc) : alert_doc :=
  {| al_oid := al_oid d; al_id := al_id d; al_type := al_type d;
     al_severity := al_severity d; al_location := al_location d;
     al_message := al_message d; al_channels := al_channels d;
     al_status := "Resolved"; al_timestamp := al_timestamp d;
     al_resolved_at := Some now |}.

(** [update_one(filter, {"$set": ...})]: the first match, in collection
    order, is updated; the result is the new list and [matched_count]. *)
Fixpoint update_one {A} (p : A -> bool) (f : A -> A) (l : list A)
  : list A * nat :=
  match l with
  | [] => ([], 0%nat)
  | x :: l' =>
      if p x then (f x :: l', 1%nat)
      else let '(l'', n) := update_one p f l' in (x :: l'', n)
  end.

(** [delete_one(filter)]: the first match is removed; the result is the
    new list and [deleted_count]. *)
Fixpoint delete_one {A} (p : A -> bool) (l : list A) : list A * nat :=
  match l with
  | [] => ([], 0%nat)
  | x :: l' =>
      if p x then (l', 1%nat)
      else let '(l'', n) := delete_one p l' in (x :: l'', n)
  end.

Definition has_id (alert_id : string) (d : alert_doc) : bool :=
  String.eqb (al_id d) alert_id.

(** [PATCH /alerts/<alert_id>/resolve]; the answer carries the id. *)
Definition resolve_alert (alert_id : string) (w : world)
  : response string * world :=
  let '(now, w) := utcnow w in
  let '(docs, matched_count) :=
    update_one (has_id alert_id) (resolved now) (alerts_collection w) in
  let w := set_alerts docs w in
  if (matched_count =? 0)%nat then (Err 404 "Alert not found", w)
  else (Ok 200 alert_id, w).

(** [DELETE /alerts/<alert_id>] *)
Definition delete_alert (alert_id : string) (w : world)
  : response unit * world :=
  let '(docs, deleted_count) :=
    delete_one (has_id alert_id) (alerts_collection w) in
  let w := set_alerts docs w in
  if (deleted_count =? 0)%nat then (Err 404 "Alert not found", w)
  else (Ok 200 (), w).

End Backend.

(** * Notions used in the statements *)

(** Lexicographic order on (year, month, day). *)
Definition date_lt (a b : Z * Z * Z) : Prop :=
  a.1.1 < b.1.1
  \/ (a.1.1 = b.1.1 /\ (a.1.2 < b.1.2 \/ (a.1.2 = b.1.2 /\ a.2 < b.2))).

(** A recipient the loop of [send_sms_alert] does not skip. *)
Definition valid_number (number : string) : bool :=
  str_truthy number && negb (str_contains "XXXXXXXXXX" number).

(** The recipients a dispatch would attempt, in list order. *)
Definition valid_recipients (E : env) (rcpts : option (list string))
  : list string :=
  filter (fun n => valid_number n = true) (default (ALERT_RECIPIENTS E) rcpts).

Definition mk_call (E : env) (message number : string) : gw_call :=
  {| call_body := message; call_from := TWILIO_FROM_NUMBER E;
     call_to := number |}.

(** The gateway accepts the calls for [numbers] when they are made one
    after the other, the first being call number [base]. *)
Definition accepted_from (E : env) (message : string) (base : nat)
    (numbers : list string) : Prop :=
  forall i n,
    numbers !! i = Some n ->
    exists sid status,
      twilio_at E (base + i) (mk_call E message n) = Accepted sid status.

Definition add_calls (cs : list gw_call) (w : world) : world :=
  {| collection := collection w; alerts_collection := alerts_collection w;
     sms_log_collection := sms_log_collection w; next_oid := next_oid w;
     clock_reads := clock_reads w; gateway_calls := gateway_calls w ++ cs |}.

(** A notification candidate: the alert type and the text of one call of
    [send_sms_alert]. *)
Definition candidate : Type := string * string.

(** The candidates of a reading: the calls [check_and_send_sensor_sms]
    makes, in order. *)
Definition sensor_candidates (d : sensor_data) (risk ts : string)
  : list candidate :=
  sensor_checks (fun alert_type message cs => cs ++ [(alert_type, message)])
    d risk ts [].

Definition of_type (T : string) (cs : list candidate) : list candidate :=
  filter (fun c => c.1 = T) cs.

(** The text of the timestamp in the messages. *)
Definition ts_fmt_of (ts : string) : string :=
  str_replace_char "T" " " (str_take 19 ts) +:+ " UTC".

(** The calls of each [if]/[elif] pair. *)
Definition flood_calls (distance : Z) (ts_fmt : string) : list candidate :=
  if distance <=? critical (THRESHOLDS !!! "distance")
  then [("FLOOD", flood_critical_text distance ts_fmt)]
  else if distance <=? warn (THRESHOLDS !!! "distance")
  then [("FLOOD", flood_warning_text distance ts_fmt)]
  else [].

Definition rain_calls (rain : Z) (ts_fmt : string) : list candidate :=
  if rain >=? critical (THRESHOLDS !!! "rain_level")
  then [("RAIN", rain_critical_text rain ts_fmt)]
  else if rain >=? warn (THRESHOLDS !!! "rain_level")
  then [("RAIN", rain_advisory_text rain ts_fmt)]
  else [].

Definition air_calls (air : Z) (ts_fmt : string) : list candidate :=
  if air >=? critical (THRESHOLDS !!! "air_quality")
  then [("AIR", air_critical_text air ts_fmt)]
  else if air >=? warn (THRESHOLDS !!! "air_quality")
  then [("AIR", air_warning_text air ts_fmt)]
  else [].

Definition fire_calls (temperature : Z) (ts_fmt : string) : list candidate :=
  if temperature >=? critical (THRESHOLDS !!! "temperature")
  then [("FIRE", fire_critical_text temperature ts_fmt)]
  else if temperature >=? warn (THRESHOLDS !!! "temperature")
  then [("FIRE", heat_warning_text temperature ts_fmt)]
  else [].

Definition risk_calls (risk : string) (temperature rain distance air : Z)
    (ts_fmt : string) : list candidate :=
  if String.eqb risk "HIGH"
  then [("RISK_HIGH", risk_high_text temperature rain distance air ts_fmt)]
  else [].

(** What the loops of [weekly_risk] maintain of a bucket. *)
Definition bucket_ok (b : bucket) : Prop :=
  0 <= count b /\ 0 <= total_score b <= 3 * count b.

Definition buckets_ok (bs : gmap string bucket) : Prop :=
  forall k b, bs !! k = Some b -> bucket_ok b.

(** The day key [weekly_risk] computes for a document. *)
Definition day_key_of (doc : nat * sensor_data) : option string :=
  strftime_Ymd <$> timestamp doc.2.

(** The documents of the query of [weekly_risk] that fall on the day
    with key [key]. *)
Definition readings_on (cutoff key : string) (docs : list (nat * sensor_data))
  : list (nat * sensor_data) :=
  filter (fun doc => day_key_of doc = Some key)
    (filter (fun doc => since_query cutoff doc = true) docs).

(** The bucket of day [k], if any, has counted no reading. *)
Definition bucket_untouched (k : string) (bs : gmap string bucket) : Prop :=
  forall b, bs !! k = Some b -> count b = 0.

(** What a stable sort establishes between an element and a later one:
    they are in order, and when they tie they are still related as they
    were before the sort. *)
Definition in_stable_order {A} (le : A -> A -> bool) (R : A -> A -> Prop)
    (a b : A) : Prop :=
  le a b = true /\ (le b a = true -> R a b).

(** The order of the alert listing: by key, and newest first within a key. *)
Definition listing_order (a b : alert_doc) : Prop :=
  in_stable_order alert_le (fun a b => (al_oid b < al_oid a)%nat) a b.

(** The [_id]s of the alerts are distinct and below the counter. *)
Definition alerts_wf (w : world) : Prop :=
  NoDup (map al_oid (alerts_collection w))
  /\ Forall (fun d => (al_oid d < next_oid w)%nat) (alerts_collection w).

(** The requests that change the state. *)
Inductive request :=
| PostSensorData (body : option (gmap string Z))
| PostAlert (body : option alert_form)
| PatchResolve (alert_id : string)
| DeleteAlert (alert_id : string)
| GetWeeklyRisk.

Definition handle (E : env) (w : world) (r : request) : world :=
  match r with
  | PostSensorData body => (receive_sensor_data E body w).2
  | PostAlert body => (create_alert E body w).2
  | PatchResolve alert_id => (resolve_alert E alert_id w).2
  | DeleteAlert alert_id => (delete_alert alert_id w).2
  | GetWeeklyRisk => (weekly_risk E w).2
  end.

(** ** Concrete inputs for the examples *)

(** 2024-01-01T00:00:00 *)
Definition t_2024 : datetime := 1704067200000000.

(** An environment with one recipient, a gateway that accepts every
    call, a classifier that fails and the given clock. *)
Definition env_of_clock (clock : nat -> datetime) : env :=
  {| ALERT_RECIPIENTS := ["+15550001111"];
     TWILIO_FROM_NUMBER := "+1234567890";
     utcnow_at := clock;
     twilio_at := fun k _ => Accepted ("SM" +:+ pretty k) "queued";
     model_predict := fun _ => None |}.

Definition env_at (t : datetime) : env := env_of_clock (fun _ => t).

(** A gateway that accepts every call but those numbered in [failing];
    the clock advances by one second per reading. *)
Definition env_failing (recipients : list string) (failing : list nat) : env :=
  {| ALERT_RECIPIENTS := recipients;
     TWILIO_FROM_NUMBER := "+1234567890";
     utcnow_at := fun k => t_2024 + Z.of_nat k * 1000000;
     twilio_at := fun k _ =>
       if bool_decide (k ∈ failing) then Raised "HTTP 400 invalid number"
       else Accepted ("SM" +:+ pretty k) "queued";
     model_predict := fun _ => None |}.

Definition flood_record : sms_doc :=
  {| sms_oid := 0; sms_alert_type := "FLOOD"; sms_message := "m";
     sms_recipients := ["+15550001111"]; sms_twilio_sid := "SM0";
     sms_sent_at := t_2024 |}.

Definition quake_record : sms_doc :=
  {| sms_oid := 0; sms_alert_type := "QUAKE"; sms_message := "m";
     sms_recipients := ["+15550001111"]; sms_twilio_sid := "SM0";
     sms_sent_at := t_2024 |}.

Definition world_with_log (l : list sms_doc) : world :=
  set_sms_log l empty_world.

(** A clock that reads one second before [t_2024], then [t_2024], then
    30 minutes later for good. *)
Definition clock_window_end (k : nat) : datetime :=
  match k with
  | 0%nat => t_2024 - 1000000
  | 1%nat => t_2024
  | _ => t_2024 + timedelta_minutes 30
  end.

(** The state after a first FLOOD dispatch under that clock. *)
Definition world_flood_sent : world :=
  (send_sms_alert (env_of_clock clock_window_end) "FLOOD" "m" None
     empty_world).2.

Definition three_recipients : list string :=
  ["+15550000001"; "+15550000002"; "+15550000003"].

Definition two_recipients : list string := ["+15550000001"; "+15550000002"].

Definition reading_distance_40 : sensor_data :=
  {| signals := {[ "distance" := 40 ]}; timestamp := None; risk := None |}.

Definition reading_rain_75 : sensor_data :=
  {| signals := {[ "rain_level" := 75 ]}; timestamp := None; risk := None |}.

Definition form_flood : alert_form :=
  {| fields :=
       list_to_map
         [("type", "Flood"); ("severity", "High");
          ("location", "Riverside"); ("message", "Water rising")];
     channels := None |}.

Definition form_no_location : alert_form :=
  {| fields :=
       list_to_map
         [("type", "Flood"); ("severity", "High"); ("location", "");
          ("message", "Water rising")];
     channels := Some ["SMS"] |}.

Definition form_empty : alert_form := {| fields := ∅; channels := None |}.

Definition env_2024 : env := env_at t_2024.

(** One hour later. *)
Definition env_2024_later : env := env_at (t_2024 + 3600000000).

(** The state after one reading that the classifier could not label. *)
Definition world_unlabelled_reading : world :=
  (receive_sensor_data env_2024 (Some {[ "distance" := 120 ]}) empty_world).2.

Definition two_created : world :=
  (create_alert env_2024 (Some form_flood)
     (create_alert env_2024 (Some form_flood) empty_world).2).2.

Definition after_delete_create : world :=
  (create_alert env_2024 (Some form_flood)
     (delete_alert "AL-2024-001" two_created).2).2.

Definition resolved_once : world :=
  (resolve_alert env_2024 "AL-2024-001"
     (create_alert env_2024 (Some form_flood) empty_world).2).2.

Definition three_alerts : world :=
  (resolve_alert env_2024 "AL-2024-001"
     (create_alert env_2024 (Some form_flood) two_created).2).2.

(** * Properties *)

Ltac div_lia := Z.div_mod_to_equations; lia.

Ltac world_simpl :=
  cbn [utcnow fresh_oid set_collection set_alerts set_sms_log add_calls
       collection alerts_collection sms_log_collection next_oid clock_reads
       gateway_calls fst snd] in *.

(** ** The calendar is monotone *)

Lemma yoe_of_range doe : 0 <= doe < 146097 -> 0 <= yoe_of doe <= 399.
Proof. unfold yoe_of. intros. div_lia. Qed.

Lemma doy_of_range doe : 0 <= doe < 146097 -> 0 <= doy_of doe <= 365.
Proof. unfold doy_of, yoe_of, year_start. intros. div_lia. Qed.

Lemma year_day_mono a b :
  0 <= a < b -> b < 146097 ->
  yoe_of a < yoe_of b \/ (yoe_of a = yoe_of b /\ doy_of a < doy_of b).
Proof. unfold doy_of, yoe_of, year_start. intros. div_lia. Qed.

Lemma month_day_range doy :
  0 <= doy <= 365 -> 0 <= mp_of doy <= 11 /\ 1 <= dom_of doy <= 31.
Proof. unfold dom_of, mp_of. intros. div_lia. Qed.

Lemma month_day_mono a b :
  0 <= a < b -> b <= 365 ->
  mp_of a < mp_of b \/ (mp_of a = mp_of b /\ dom_of a < dom_of b).
Proof. unfold dom_of, mp_of. intros. div_lia. Qed.

Lemma civil_of_doe_mono a b :
  0 <= a < b -> b < 146097 -> date_lt (civil_of_doe a) (civil_of_doe b).
Proof.
  intros Ha Hb.
  pose proof (doy_of_range a ltac:(lia)) as Hda.
  pose proof (doy_of_range b ltac:(lia)) as Hdb.
  pose proof (month_day_range _ Hda) as [Hma _].
  pose proof (month_day_range _ Hdb) as [Hmb _].
  unfold civil_of_doe, date_lt.
  destruct (year_day_mono a b Ha Hb) as [Hy | [Hy Hd]].
  - (* a later year of the era: at most the months differ *)
    destruct (Z.ltb_spec (mp_of (doy_of a)) 10),
             (Z.ltb_spec (mp_of (doy_of b)) 10); cbn [fst snd]; lia.
  - (* the same year of the era *)
    destruct (month_day_mono (doy_of a) (doy_of b) ltac:(lia) ltac:(lia))
      as [Hm | [Hm Hdm]];
      destruct (Z.ltb_spec (mp_of (doy_of a)) 10),
               (Z.ltb_spec (mp_of (doy_of b)) 10); cbn [fst snd]; lia.
Qed.

Lemma civil_of_doe_range doe :
  0 <= doe < 146097 ->
  let c := civil_of_doe doe in
  0 <= c.1.1 <= 400 /\ 1 <= c.1.2 <= 12 /\ 1 <= c.2 <= 31
  /\ (c.1.1 = 0 -> 3 <= c.1.2) /\ (c.1.1 = 400 -> c.1.2 <= 2).
Proof.
  intros Hd.
  pose proof (yoe_of_range doe Hd) as Hy.
  pose proof (month_day_range _ (doy_of_range doe Hd)) as [Hm Hdm].
  unfold civil_of_doe.
  destruct (Z.ltb_spec (mp_of (doy_of doe)) 10); cbn [fst snd]; lia.
Qed.

Lemma civil_from_days_mono z1 z2 :
  z1 < z2 -> date_lt (civil_from_days z1) (civil_from_days z2).
Proof.
  intros Hlt. unfold civil_from_days.
  set (s1 := z1 + 719468). set (s2 := z2 + 719468).
  assert (Hs : s1 < s2) by (subst s1 s2; lia).
  assert (H1 : 0 <= s1 mod 146097 < 146097) by (apply Z.mod_pos_bound; lia).
  assert (H2 : 0 <= s2 mod 146097 < 146097) by (apply Z.mod_pos_bound; lia).
  pose proof (civil_of_doe_range _ H1) as R1.
  pose proof (civil_of_doe_range _ H2) as R2.
  assert (He : s1 / 146097 < s2 / 146097
               \/ (s1 / 146097 = s2 / 146097
                   /\ s1 mod 146097 < s2 mod 146097)) by div_lia.
  destruct He as [He | [He Hm]].
  - destruct (civil_of_doe (s1 mod 146097)) as [[y1 m1] d1].
    destruct (civil_of_doe (s2 mod 146097)) as [[y2 m2] d2].
    unfold date_lt. cbn [fst snd] in *. lia.
  - pose proof (civil_of_doe_mono _ _ (conj (proj1 H1) Hm) (proj2 H2)) as M.
    destruct (civil_of_doe (s1 mod 146097)) as [[y1 m1] d1].
    destruct (civil_of_doe (s2 mod 146097)) as [[y2 m2] d2].
    unfold date_lt in *. cbn [fst snd] in *. lia.
Qed.

Lemma civil_from_days_range z :
  1 <= (civil_from_days z).1.2 <= 12 /\ 1 <= (civil_from_days z).2 <= 31.
Proof.
  unfold civil_from_days.
  assert (H1 : 0 <= (z + 719468) mod 146097 < 146097)
    by (apply Z.mod_pos_bound; lia).
  pose proof (civil_of_doe_range _ H1) as R1.
  destruct (civil_of_doe ((z + 719468) mod 146097)) as [[y1 m1] d1].
  cbn [fst snd] in *. lia.
Qed.

Lemma date_of_mono t1 t2 : t1 <= t2 -> date_of t1 <= date_of t2.
Proof. unfold date_of. intros. div_lia. Qed.

Lemma valid_year t : valid_datetime t -> 1 <= dt_year t <= 9999.
Proof.
  unfold valid_datetime, DATETIME_MIN, DATETIME_END, dt_year. intros [Hlo Hhi].
  assert (Hd : -719162 <= date_of t <= 2932896) by (unfold date_of; div_lia).
  split.
  - destruct (Z.eq_dec (date_of t) (-719162)) as [-> | Hne]; [vm_compute; congruence|].
    pose proof (civil_from_days_mono (-719162) (date_of t) ltac:(lia)) as M.
    unfold date_lt in M. 
    change ((civil_from_days (-719162)).1.1) with 1 in M. lia.
  - destruct (Z.eq_dec (date_of t) 2932896) as [-> | Hne]; [vm_compute; congruence|].
    pose proof (civil_from_days_mono (date_of t) 2932896 ltac:(lia)) as M.
    unfold date_lt in M.
    change ((civil_from_days 2932896).1.1) with 9999 in M. lia.
Qed.

Lemma time_fields_range t :
  0 <= dt_hour t <= 23 /\ 0 <= dt_minute t <= 59 /\ 0 <= dt_second t <= 59
  /\ 0 <= dt_microsecond t <= 999999.
Proof.
  unfold dt_hour, dt_minute, dt_second, dt_microsecond, time_of. div_lia.
Qed.

(** Within one day, the fields of the time of day order as the instants. *)
Lemma time_fields_mono t1 t2 :
  t1 < t2 -> date_of t1 = date_of t2 ->
  dt_hour t1 < dt_hour t2
  \/ (dt_hour t1 = dt_hour t2
      /\ (dt_minute t1 < dt_minute t2
          \/ (dt_minute t1 = dt_minute t2
              /\ (dt_second t1 < dt_second t2
                  \/ (dt_second t1 = dt_second t2
                      /\ dt_microsecond t1 < dt_microsecond t2))))).
Proof.
  unfold dt_hour, dt_minute, dt_second, dt_microsecond, time_of, date_of.
  intros. div_lia.
Qed.

(** ** ISO texts order as their instants *)

Lemma ascii_compare_refl c : Ascii.compare c c = Eq.
Proof. unfold Ascii.compare. apply N.compare_refl. Qed.

Lemma string_compare_refl s : String.compare s s = Eq.
Proof.
  induction s as [|c s IH]; [reflexivity|].
  cbn [String.compare]. now rewrite ascii_compare_refl.
Qed.

Lemma str_app_nil (s : string) : "" +:+ s = s.
Proof. reflexivity. Qed.

Lemma str_app_cons c (s t : string) : String c s +:+ t = String c (s +:+ t).
Proof. reflexivity. Qed.

Lemma str_app_nil_r (s : string) : s +:+ "" = s.
Proof. induction s as [|c s IH]; [reflexivity|]. now rewrite str_app_cons, IH. Qed.

Lemma str_append_assoc (a b c : string) : (a +:+ b) +:+ c = a +:+ (b +:+ c).
Proof.
  induction a as [|x a IH]; [reflexivity|]. now rewrite !str_app_cons, IH.
Qed.

Lemma digit_char_compare a b :
  0 <= a <= 9 -> 0 <= b <= 9 ->
  Ascii.compare (digit_char a) (digit_char b) = (a ?= b).
Proof.
  intros Ha Hb.
  assert (Ea : a = 0 \/ a = 1 \/ a = 2 \/ a = 3 \/ a = 4 \/ a = 5 \/ a = 6
               \/ a = 7 \/ a = 8 \/ a = 9) by lia.
  assert (Eb : b = 0 \/ b = 1 \/ b = 2 \/ b = 3 \/ b = 4 \/ b = 5 \/ b = 6
               \/ b = 7 \/ b = 8 \/ b = 9) by lia.
  repeat (destruct Ea as [-> | Ea]); try subst a;
    repeat (destruct Eb as [-> | Eb]); try subst b; reflexivity.
Qed.

Lemma zero_pad_compare w a b s1 s2 :
  String.compare (zero_pad w a +:+ s1) (zero_pad w b +:+ s2)
  = match a mod 10 ^ Z.of_nat w ?= b mod 10 ^ Z.of_nat w with
    | Eq => String.compare s1 s2
    | c => c
    end.
Proof.
  induction w as [|w IH].
  - cbn [zero_pad]. rewrite !str_app_nil. change (10 ^ Z.of_nat 0) with 1.
    now rewrite !Z.mod_1_r.
  - cbn [zero_pad]. rewrite !str_app_cons. cbn [String.compare].
    set (P := 10 ^ Z.of_nat w) in *.
    assert (HP : 0 < P) by (subst P; apply Z.pow_pos_nonneg; lia).
    replace (10 ^ Z.of_nat (S w)) with (P * 10)
      by (subst P; rewrite Nat2Z.inj_succ, Z.pow_succ_r; lia).
    rewrite !(Z.rem_mul_r _ P 10) by lia.
    pose proof (Z.mod_pos_bound (a / P) 10 ltac:(lia)) as Hda.
    pose proof (Z.mod_pos_bound (b / P) 10 ltac:(lia)) as Hdb.
    pose proof (Z.mod_pos_bound a P HP) as Hra.
    pose proof (Z.mod_pos_bound b P HP) as Hrb.
    rewrite digit_char_compare by lia. rewrite IH. clear IH.
    set (da := (a / P) mod 10) in *. set (db := (b / P) mod 10) in *.
    set (ra := a mod P) in *. set (rb := b mod P) in *.
    destruct (Z.lt_total da db) as [Hd | [Hd | Hd]].
    + rewrite (proj2 (Z.compare_lt_iff da db) Hd).
      now rewrite (proj2 (Z.compare_lt_iff _ _)) by nia.
    + rewrite Hd, Z.compare_refl.
      destruct (Z.lt_total ra rb) as [Hr | [Hr | Hr]].
      * rewrite (proj2 (Z.compare_lt_iff ra rb) Hr).
        now rewrite (proj2 (Z.compare_lt_iff _ _)) by lia.
      * now rewrite Hr, !Z.compare_refl.
      * rewrite (proj2 (Z.compare_gt_iff ra rb) Hr).
        now rewrite (proj2 (Z.compare_gt_iff _ _)) by lia.
    + rewrite (proj2 (Z.compare_gt_iff da db) Hd).
      now rewrite (proj2 (Z.compare_gt_iff _ _)) by nia.
Qed.

Lemma zero_pad_sep_compare w a b c s1 s2 :
  0 <= a < 10 ^ Z.of_nat w -> 0 <= b < 10 ^ Z.of_nat w ->
  String.compare (zero_pad w a +:+ String c s1) (zero_pad w b +:+ String c s2)
  = match a ?= b with
    | Eq => String.compare s1 s2
    | r => r
    end.
Proof.
  intros Ha Hb. rewrite zero_pad_compare, !Z.mod_small by lia.
  cbn [String.compare]. now rewrite ascii_compare_refl.
Qed.

(** The fraction of [isoformat]: empty for zero, which sorts first. *)
Lemma fraction_compare u1 u2 :
  0 <= u1 <= 999999 -> 0 <= u2 <= 999999 ->
  String.compare
    (if u1 =? 0 then "" else "." +:+ zero_pad 6 u1)
    (if u2 =? 0 then "" else "." +:+ zero_pad 6 u2)
  = (u1 ?= u2).
Proof.
  intros H1 H2.
  destruct (Z.eqb_spec u1 0) as [-> | N1], (Z.eqb_spec u2 0) as [-> | N2].
  - reflexivity.
  - rewrite str_app_cons. cbn [String.compare].
    now rewrite (proj2 (Z.compare_lt_iff _ _)) by lia.
  - rewrite str_app_cons. cbn [String.compare].
    now rewrite (proj2 (Z.compare_gt_iff _ _)) by lia.
  - rewrite !str_app_cons, !str_app_nil. cbn [String.compare].
    rewrite ascii_compare_refl.
    rewrite <- (str_app_nil_r (zero_pad 6 u1)), <- (str_app_nil_r (zero_pad 6 u2)).
    rewrite zero_pad_compare, !Z.mod_small by (cbn; lia).
    now destruct (u1 ?= u2).
Qed.

Lemma isoformat_fields_compare t1 t2 :
  valid_datetime t1 -> valid_datetime t2 ->
  String.compare (isoformat t1) (isoformat t2)
  = match dt_year t1 ?= dt_year t2 with
    | Eq =>
      match dt_month t1 ?= dt_month t2 with
      | Eq =>
        match dt_day t1 ?= dt_day t2 with
        | Eq =>
          match dt_hour t1 ?= dt_hour t2 with
          | Eq =>
            match dt_minute t1 ?= dt_minute t2 with
            | Eq =>
              match dt_second t1 ?= dt_second t2 with
              | Eq => dt_microsecond t1 ?= dt_microsecond t2
              | c => c
              end
            | c => c
            end
          | c => c
          end
        | c => c
        end
      | c => c
      end
    | c => c
    end.
Proof.
  intros V1 V2.
  pose proof (valid_year t1 V1) as Y1. pose proof (valid_year t2 V2) as Y2.
  pose proof (civil_from_days_range (date_of t1)) as [M1 D1].
  pose proof (civil_from_days_range (date_of t2)) as [M2 D2].
  pose proof (time_fields_range t1) as (h1 & m1 & s1 & u1).
  pose proof (time_fields_range t2) as (h2 & m2 & s2 & u2).
  fold (dt_month t1) in M1. fold (dt_month t2) in M2.
  fold (dt_day t1) in D1. fold (dt_day t2) in D2.
  unfold isoformat, strftime_Ymd.
  rewrite !str_append_assoc, !str_app_cons, !str_app_nil.
  rewrite !zero_pad_sep_compare
    by (change (10 ^ Z.of_nat 4) with 10000;
        change (10 ^ Z.of_nat 2) with 100; lia).
  rewrite zero_pad_compare, !Z.mod_small
    by (change (10 ^ Z.of_nat 2) with 100; lia).
  now rewrite fraction_compare by lia.
Qed.

(** An earlier instant has the smaller text. *)
Lemma isoformat_lt t1 t2 :
  valid_datetime t1 -> valid_datetime t2 -> t1 < t2 ->
  String.compare (isoformat t1) (isoformat t2) = Lt.
Proof.
  intros V1 V2 Hlt. rewrite isoformat_fields_compare by assumption.
  pose proof (date_of_mono t1 t2 ltac:(lia)) as Hd.
  destruct (Z.eq_dec (date_of t1) (date_of t2)) as [He | Hne].
  - unfold dt_year, dt_month, dt_day. rewrite He, !Z.compare_refl.
    destruct (time_fields_mono t1 t2 Hlt He)
      as [H | [-> [H | [-> [H | [-> H]]]]]];
      rewrite ?Z.compare_refl; now rewrite (proj2 (Z.compare_lt_iff _ _) H).
  - pose proof (civil_from_days_mono (date_of t1) (date_of t2) ltac:(lia))
      as [H | [E [H | [E' H]]]];
      unfold dt_year, dt_month, dt_day;
      rewrite ?E, ?E', ?Z.compare_refl;
      now rewrite (proj2 (Z.compare_lt_iff _ _) H).
Qed.

(** ISO texts of datetimes compare, byte by byte, as the instants do. *)
Lemma isoformat_compare t1 t2 :
  valid_datetime t1 -> valid_datetime t2 ->
  String.compare (isoformat t1) (isoformat t2) = (t1 ?= t2).
Proof.
  intros V1 V2. destruct (Z.lt_total t1 t2) as [H | [H | H]].
  - rewrite (proj2 (Z.compare_lt_iff _ _) H). now apply isoformat_lt.
  - subst t2. rewrite Z.compare_refl. apply string_compare_refl.
  - rewrite (proj2 (Z.compare_gt_iff _ _) H).
    rewrite String.compare_antisym, isoformat_lt by assumption. reflexivity.
Qed.

(** [$gte] on ISO texts is [>=] on the instants. *)
Lemma str_ge_isoformat t1 t2 :
  valid_datetime t1 -> valid_datetime t2 ->
  str_ge (isoformat t1) (isoformat t2) = (t2 <=? t1).
Proof.
  intros V1 V2. unfold str_ge. rewrite isoformat_compare by assumption.
  destruct (Z.compare_spec t1 t2); symmetry;
    (apply Z.leb_le || apply Z.leb_gt); lia.
Qed.

(** Dates too: the [%Y-%m-%d] text determines the day. *)
Lemma strftime_Ymd_inj t1 t2 :
  valid_datetime t1 -> valid_datetime t2 ->
  strftime_Ymd t1 = strftime_Ymd t2 -> date_of t1 = date_of t2.
Proof.
  intros V1 V2 He.
  assert (Hc : String.compare (strftime_Ymd t1 +:+ "") (strftime_Ymd t2 +:+ "") = Eq)
    by (rewrite He; apply string_compare_refl).
  pose proof (valid_year t1 V1) as Y1. pose proof (valid_year t2 V2) as Y2.
  pose proof (civil_from_days_range (date_of t1)) as [M1 D1].
  pose proof (civil_from_days_range (date_of t2)) as [M2 D2].
  fold (dt_month t1) in M1. fold (dt_month t2) in M2.
  fold (dt_day t1) in D1. fold (dt_day t2) in D2.
  unfold strftime_Ymd in Hc.
  rewrite !str_append_assoc, !str_app_cons, !str_app_nil in Hc.
  rewrite !zero_pad_sep_compare in Hc
    by (change (10 ^ Z.of_nat 4) with 10000;
        change (10 ^ Z.of_nat 2) with 100; lia).
  rewrite zero_pad_compare, !Z.mod_small in Hc
    by (change (10 ^ Z.of_nat 2) with 100; lia).
  destruct (Z.lt_total (date_of t1) (date_of t2)) as [H | [H | H]];
    [exfalso | assumption | exfalso].
  - pose proof (civil_from_days_mono _ _ H) as [L | [E [L | [E' L]]]];
      unfold dt_year, dt_month, dt_day in Hc;
      rewrite ?E, ?E', ?Z.compare_refl in Hc;
      rewrite (proj2 (Z.compare_lt_iff _ _) L) in Hc; discriminate.
  - pose proof (civil_from_days_mono _ _ H) as [L | [E [L | [E' L]]]];
      unfold dt_year, dt_month, dt_day in Hc;
      rewrite <- ?E, <- ?E', ?Z.compare_refl in Hc;
      rewrite (proj2 (Z.compare_gt_iff _ _) L) in Hc; discriminate.
Qed.

(** ** The cooldown check *)

Lemma find_filter {A} (p : A -> bool) (Q : A -> Prop)
    `{!forall x, Decision (Q x)} (l : list A) :
  (forall x, p x = true -> Q x) -> find p (filter Q l) = find p l.
Proof.
  intros Hpq. induction l as [|x l IH]; [reflexivity|].
  rewrite filter_cons. cbn [find].
  destruct (decide (Q x)) as [Hq | Hq].
  - cbn [find]. now rewrite IH.
  - destruct (p x) eqn:Hp; [now apply Hpq in Hp | assumption].
Qed.

Lemma is_on_cooldown_unfold (E : env) (T : string) (w : world) :
  default 30 (SMS_COOLDOWN_MINUTES !! T) <> 0 ->
  (_is_on_cooldown E T w).1
  = match
      find
        (cooldown_query T
           (isoformat
              (utcnow_at E (clock_reads w)
               - timedelta_minutes (default 30 (SMS_COOLDOWN_MINUTES !! T)))))
        (sms_log_collection w)
    with
    | Some _ => true
    | None => false
    end.
Proof.
  intros HC. unfold _is_on_cooldown.
  destruct (Z.eqb_spec (default 30 (SMS_COOLDOWN_MINUTES !! T)) 0) as [|_];
    [contradiction | reflexivity].
Qed.

Lemma is_on_cooldown_zero (E : env) (T : string) (w : world) :
  default 30 (SMS_COOLDOWN_MINUTES !! T) = 0 ->
  _is_on_cooldown E T w = (false, w).
Proof. intros HC. unfold _is_on_cooldown. now rewrite HC. Qed.

(** C1 (as amended).  With cooldown [C > 0] for type [T] and a record of
    type [T] sent at [t0] in the log, the check made at time [now]
    reports suppressed whenever [now <= t0 + C] (the end of the window
    included, since the query is [sent_at >= now - C]); it reports not
    suppressed at every later time, provided no record of type [T] is
    more recent than [t0]; and its answer depends on the records of type
    [T] only. *)
Theorem cooldown_window (E : env) (T : string) (C : Z) (w : world)
    (d : sms_doc) (t0 now : datetime) :
  default 30 (SMS_COOLDOWN_MINUTES !! T) = C -> 0 < C ->
  d ∈ sms_log_collection w -> sms_alert_type d = T -> sms_sent_at d = t0 ->
  utcnow_at E (clock_reads w) = now ->
  valid_datetime t0 -> valid_datetime (now - timedelta_minutes C) ->
  (now <= t0 + timedelta_minutes C -> (_is_on_cooldown E T w).1 = true)
  /\ ((forall d', d' ∈ sms_log_collection w -> sms_alert_type d' = T ->
         valid_datetime (sms_sent_at d') /\ sms_sent_at d' <= t0) ->
      t0 + timedelta_minutes C < now -> (_is_on_cooldown E T w).1 = false)
  /\ (_is_on_cooldown E T w).1
     = (_is_on_cooldown E T
          (set_sms_log
             (filter (fun d' => sms_alert_type d' = T) (sms_log_collection w))
             w)).1.
Proof.
  intros HC Hpos Hin HT Ht0 Hnow Vt0 Vcut.
  rewrite !is_on_cooldown_unfold by (rewrite HC; lia).
  rewrite HC. cbn [set_sms_log sms_log_collection clock_reads]. rewrite Hnow.
  repeat split.
  - intros Hle.
    destruct (find _ _) eqn:Hf; [reflexivity|].
    apply list_elem_of_In in Hin. pose proof (find_none _ _ Hf d Hin) as Hq.
    unfold cooldown_query in Hq.
    rewrite HT, Ht0, String.eqb_refl, str_ge_isoformat in Hq by assumption.
    apply Z.leb_gt in Hq. lia.
  - intros Hlast Hgt.
    destruct (find _ _) as [x|] eqn:Hf; [|reflexivity].
    apply find_some in Hf as [Hx Hq]. apply list_elem_of_In in Hx.
    unfold cooldown_query in Hq. apply andb_true_iff in Hq as [Hty Hge].
    apply String.eqb_eq in Hty. destruct (Hlast x Hx Hty) as [Vx Hxle].
    rewrite str_ge_isoformat in Hge by assumption. apply Z.leb_le in Hge. lia.
  - rewrite find_filter; [reflexivity|].
    intros x Hq. unfold cooldown_query in Hq.
    apply andb_true_iff in Hq as [Hty _]. now apply String.eqb_eq in Hty.
Qed.

(** Ten minutes after a FLOOD message the check suppresses; 31 minutes
    after, it does not. *)
Lemma cooldown_window_witness :
  (_is_on_cooldown (env_at (t_2024 + timedelta_minutes 10)) "FLOOD"
     (world_with_log [flood_record])).1 = true
  /\ (_is_on_cooldown (env_at (t_2024 + timedelta_minutes 31)) "FLOOD"
        (world_with_log [flood_record])).1 = false.
Proof.
  split.
  - refine (proj1 (cooldown_window (env_at (t_2024 + timedelta_minutes 10))
                     "FLOOD" 30 (world_with_log [flood_record]) flood_record
                     t_2024 (t_2024 + timedelta_minutes 10)
                     _ _ _ _ _ _ _ _) _).
    + reflexivity.
    + lia.
    + apply list_elem_of_here.
    + reflexivity.
    + reflexivity.
    + reflexivity.
    + vm_compute. split; congruence.
    + vm_compute. split; congruence.
    + vm_compute. congruence.
  - refine (proj1 (proj2 (cooldown_window
                     (env_at (t_2024 + timedelta_minutes 31))
                     "FLOOD" 30 (world_with_log [flood_record]) flood_record
                     t_2024 (t_2024 + timedelta_minutes 31)
                     _ _ _ _ _ _ _ _)) _ _).
    + reflexivity.
    + lia.
    + apply list_elem_of_here.
    + reflexivity.
    + reflexivity.
    + reflexivity.
    + vm_compute. split; congruence.
    + vm_compute. split; congruence.
    + intros d' Hd' _. apply list_elem_of_singleton in Hd'. subst d'.
      vm_compute. repeat split; congruence.
    + vm_compute. reflexivity.
Defined.

(** C1, as stated, fails at the end of the window: a FLOOD message is
    logged at [t_2024]; 30 minutes later to the microsecond the check
    still reports suppressed, and the dispatch is refused with reason
    "cooldown". *)
Lemma cooldown_window_end_counterexample :
  map sms_alert_type (sms_log_collection world_flood_sent) = ["FLOOD"]
  /\ map sms_sent_at (sms_log_collection world_flood_sent) = [t_2024]
  /\ default 30 (SMS_COOLDOWN_MINUTES !! "FLOOD") = 30
  /\ utcnow_at (env_of_clock clock_window_end) (clock_reads world_flood_sent)
     = t_2024 + timedelta_minutes 30
  /\ (_is_on_cooldown (env_of_clock clock_window_end) "FLOOD"
        world_flood_sent).1 = true
  /\ (send_sms_alert (env_of_clock clock_window_end) "FLOOD" "m" None
        world_flood_sent).1 = NotSent "cooldown".
Proof. vm_compute. repeat split; reflexivity. Qed.

(** C5.  For every log, the check for MANUAL reports not suppressed, its
    configured cooldown being 0; so does the check for any type whose
    configured cooldown is 0; and for a type absent from the table the
    window used is 30 minutes. *)
Theorem manual_never_suppressed (E : env) (w : world) :
  (_is_on_cooldown E "MANUAL" w).1 = false
  /\ SMS_COOLDOWN_MINUTES !! "MANUAL" = Some 0
  /\ (forall T, SMS_COOLDOWN_MINUTES !! T = Some 0 ->
        (_is_on_cooldown E T w).1 = false)
  /\ (forall T, SMS_COOLDOWN_MINUTES !! T = None ->
        (_is_on_cooldown E T w).1
        = match
            find
              (cooldown_query T
                 (isoformat
                    (utcnow_at E (clock_reads w) - timedelta_minutes 30)))
              (sms_log_collection w)
          with
          | Some _ => true
          | None => false
          end).
Proof.
  repeat split.
  - intros T HT. rewrite is_on_cooldown_zero; [reflexivity | now rewrite HT].
  - intros T HT. rewrite is_on_cooldown_unfold; now rewrite HT.
Qed.

(** A type that is not configured ("QUAKE") is still suppressed 29
    minutes after its last message; MANUAL never is. *)
Lemma manual_never_suppressed_witness :
  (_is_on_cooldown (env_at (t_2024 + timedelta_minutes 29)) "MANUAL"
     (world_with_log [quake_record])).1 = false
  /\ (_is_on_cooldown (env_at (t_2024 + timedelta_minutes 29)) "QUAKE"
        (world_with_log [quake_record])).1 = true.
Proof.
  destruct (manual_never_suppressed (env_at (t_2024 + timedelta_minutes 29))
              (world_with_log [quake_record])) as (_ & _ & H0 & H30).
  split.
  - apply H0. reflexivity.
  - rewrite H30 by reflexivity. vm_compute. reflexivity.
Defined.

(** ** Dispatch *)

Lemma add_calls_nil w : add_calls [] w = w.
Proof. destruct w. unfold add_calls. cbn. now rewrite app_nil_r. Qed.

Lemma add_calls_app cs cs' w :
  add_calls cs' (add_calls cs w) = add_calls (cs ++ cs') w.
Proof. unfold add_calls. cbn. now rewrite app_assoc. Qed.

Lemma skip_iff_invalid number :
  negb (str_truthy number) || str_contains "XXXXXXXXXX" number
  = negb (valid_number number).
Proof.
  unfold valid_number.
  now destruct (str_truthy number), (str_contains "XXXXXXXXXX" number).
Qed.

Lemma accepted_from_tail (E : env) message base n ns :
  accepted_from E message base (n :: ns) ->
  accepted_from E message (base + 1) ns.
Proof.
  intros Hacc i x Hi.
  replace (base + 1 + i)%nat with (base + S i)%nat by lia.
  now apply Hacc.
Qed.

Lemma accepted_from_head (E : env) message base n ns :
  accepted_from E message base (n :: ns) ->
  exists sid status,
    twilio_at E base (mk_call E message n) = Accepted sid status.
Proof.
  intros Hacc. destruct (Hacc 0%nat n eq_refl) as (sid & status & Hr).
  rewrite Nat.add_0_r in Hr. eauto.
Qed.

(** The loop when no delivery raises: every valid recipient is attempted
    once, in order. *)
Lemma send_loop_all_accepted (E : env) message recipients :
  forall results last_sid w,
    accepted_from E message (length (gateway_calls w))
      (filter (fun n => valid_number n = true) recipients) ->
    exists results' last_sid',
      send_loop E message recipients results last_sid w
      = (inr (results', last_sid'),
         add_calls
           (map (mk_call E message)
              (filter (fun n => valid_number n = true) recipients)) w).
Proof.
  induction recipients as [|number rest IH]; intros results last_sid w Hacc.
  - exists results, last_sid. cbn. now rewrite add_calls_nil.
  - cbn [send_loop]. rewrite skip_iff_invalid, filter_cons in *.
    destruct (decide (valid_number number = true)) as [Hv | Hv].
    + rewrite Hv. cbn [negb]. unfold messages_create.
      destruct (accepted_from_head _ _ _ _ _ Hacc) as (sid & status & Hr).
      fold (mk_call E message number). rewrite Hr.
      edestruct (IH (results ++ [{| dl_to := number; dl_sid := sid;
                                     dl_status := status |}])
                    (Some sid)
                    (add_calls [mk_call E message number] w))
        as (results' & last' & Hs).
      { cbn [add_calls gateway_calls]. rewrite length_app. cbn [length].
        eapply accepted_from_tail, Hacc. }
      exists results', last'. unfold add_calls at 1 in Hs. rewrite Hs.
      now rewrite add_calls_app.
    + apply not_true_is_false in Hv. rewrite Hv. cbn [negb].
      apply IH. exact Hacc.
Qed.

(** The loop when a delivery raises: the loop ends there, and the
    recipients after the failing one are not attempted. *)
Lemma send_loop_raised (E : env) message recipients :
  forall results last_sid w pre number post e,
    filter (fun n => valid_number n = true) recipients
    = pre ++ number :: post ->
    accepted_from E message (length (gateway_calls w)) pre ->
    twilio_at E (length (gateway_calls w) + length pre)
      (mk_call E message number) = Raised e ->
    send_loop E message recipients results last_sid w
    = (inl e, add_calls (map (mk_call E message) (pre ++ [number])) w).
Proof.
  induction recipients as [|x rest IH];
    intros results last_sid w pre number post e Hsplit Hacc Hraise.
  - rewrite filter_nil in Hsplit. now destruct pre.
  - cbn [send_loop]. rewrite skip_iff_invalid. rewrite filter_cons in Hsplit.
    destruct (decide (valid_number x = true)) as [Hv | Hv].
    + rewrite Hv. cbn [negb]. unfold messages_create.
      fold (mk_call E message x).
      destruct pre as [|p pre].
      * cbn [app] in Hsplit. injection Hsplit as -> Hrest.
        cbn [length] in Hraise. rewrite Nat.add_0_r in Hraise.
        now rewrite Hraise.
      * cbn [app] in Hsplit. injection Hsplit as -> Hrest.
        destruct (accepted_from_head _ _ _ _ _ Hacc) as (sid & status & Hr).
        rewrite Hr.
        change {| collection := collection w;
                  alerts_collection := alerts_collection w;
                  sms_log_collection := sms_log_collection w;
                  next_oid := next_oid w; clock_reads := clock_reads w;
                  gateway_calls := gateway_calls w ++ [mk_call E message p] |}
          with (add_calls [mk_call E message p] w).
        rewrite (IH _ _ _ pre number post e Hrest).
        -- now rewrite add_calls_app.
        -- cbn [add_calls gateway_calls]. rewrite length_app. cbn [length].
           eapply accepted_from_tail, Hacc.
        -- cbn [add_calls gateway_calls]. rewrite length_app. cbn [length].
           cbn [length] in Hraise.
           replace (length (gateway_calls w) + 1 + length pre)%nat
             with (length (gateway_calls w) + S (length pre))%nat by lia.
           exact Hraise.
    + apply not_true_is_false in Hv. rewrite Hv. cbn [negb].
      now apply (IH _ _ _ pre number post e).
Qed.

Lemma is_on_cooldown_world (E : env) T w :
  gateway_calls (_is_on_cooldown E T w).2 = gateway_calls w
  /\ sms_log_collection (_is_on_cooldown E T w).2 = sms_log_collection w.
Proof.
  unfold _is_on_cooldown.
  destruct (default 30 (SMS_COOLDOWN_MINUTES !! T) =? 0); now cbn.
Qed.

Lemma log_sms_calls (E : env) T m r sid w :
  gateway_calls (_log_sms E T m r sid w) = gateway_calls w.
Proof. reflexivity. Qed.

(** C3 (as amended).  When the check does not suppress the dispatch: if
    no delivery raises, every valid recipient receives exactly one
    attempt, in list order; if a delivery raises, the loop ends there,
    so the valid recipients up to and including the failing one have
    received one attempt each and the recipients after it receive
    none. *)
Theorem dispatch_stops_at_first_failure (E : env) (T message : string)
    (rcpts : option (list string)) (w : world) :
  (_is_on_cooldown E T w).1 = false ->
  (accepted_from E message (length (gateway_calls w))
     (valid_recipients E rcpts) ->
   gateway_calls (send_sms_alert E T message rcpts w).2
   = gateway_calls w ++ map (mk_call E message) (valid_recipients E rcpts))
  /\ (forall pre number post e,
        valid_recipients E rcpts = pre ++ number :: post ->
        accepted_from E message (length (gateway_calls w)) pre ->
        twilio_at E (length (gateway_calls w) + length pre)
          (mk_call E message number)
        = Raised e ->
        gateway_calls (send_sms_alert E T message rcpts w).2
        = gateway_calls w ++ map (mk_call E message) (pre ++ [number])).
Proof.
  intros Hcool. unfold send_sms_alert, valid_recipients.
  pose proof (is_on_cooldown_world E T w) as [Hcalls Hlog].
  destruct (_is_on_cooldown E T w) as [cooling w1] eqn:Hc.
  cbn [fst snd] in Hcool, Hcalls, Hlog. subst cooling.
  split.
  - intros Hacc.
    destruct (send_loop_all_accepted E message
                (default (ALERT_RECIPIENTS E) rcpts) [] None w1)
      as (results' & last' & Hs).
    { now rewrite Hcalls. }
    rewrite Hs.
    destruct (str_truthy (default "" last')); cbn [snd];
      rewrite ?log_sms_calls; cbn [add_calls gateway_calls];
      now rewrite Hcalls.
  - intros pre number post e Hsplit Hacc Hraise.
    rewrite (send_loop_raised E message _ [] None w1 pre number post e Hsplit).
    + cbn [fst snd add_calls gateway_calls]. now rewrite Hcalls.
    + now rewrite Hcalls.
    + now rewrite Hcalls.
Qed.

(** Three recipients, the delivery to the second raises: two calls. *)
Lemma dispatch_stops_at_first_failure_witness :
  map call_to
    (gateway_calls
       (send_sms_alert (env_failing three_recipients [1%nat]) "MANUAL" "m"
          None empty_world).2)
  = ["+15550000001"; "+15550000002"].
Proof.
  destruct (dispatch_stops_at_first_failure
              (env_failing three_recipients [1%nat]) "MANUAL" "m" None
              empty_world eq_refl) as [_ H].
  rewrite (H ["+15550000001"] "+15550000002" ["+15550000003"]
             "HTTP 400 invalid number" eq_refl).
  - reflexivity.
  - intros [|i] n Hi; [|destruct i; discriminate].
    exists "SM0", "queued". reflexivity.
  - reflexivity.
Defined.

(** What a dispatch answers and logs when a delivery raises: the error
    text, and nothing, also when earlier deliveries were accepted. *)
Lemma raised_dispatch_result (E : env) (T message : string)
    (rcpts : option (list string)) (w : world) pre number post e :
  (_is_on_cooldown E T w).1 = false ->
  valid_recipients E rcpts = pre ++ number :: post ->
  accepted_from E message (length (gateway_calls w)) pre ->
  twilio_at E (length (gateway_calls w) + length pre)
    (mk_call E message number)
  = Raised e ->
  (send_sms_alert E T message rcpts w).1 = NotSent e
  /\ sms_log_collection (send_sms_alert E T message rcpts w).2
     = sms_log_collection w.
Proof.
  intros Hcool Hsplit Hacc Hraise. unfold send_sms_alert, valid_recipients in *.
  pose proof (is_on_cooldown_world E T w) as [Hcalls Hlog].
  destruct (_is_on_cooldown E T w) as [cooling w1] eqn:Hc.
  cbn [fst snd] in Hcool, Hcalls, Hlog. subst cooling.
  rewrite (send_loop_raised E message _ [] None w1 pre number post e Hsplit).
  - cbn [fst snd add_calls sms_log_collection]. now rewrite Hlog.
  - now rewrite Hcalls.
  - now rewrite Hcalls.
Qed.

(** C3, as stated, fails: when the delivery to the first of two valid
    recipients raises, the second one receives no attempt at all. *)
Lemma dispatch_isolation_counterexample :
  valid_number "+15550000002" = true
  /\ filter (fun c => call_to c = "+15550000002")
       (gateway_calls
          (send_sms_alert (env_failing two_recipients [0%nat]) "MANUAL" "m"
             None empty_world).2)
     = []
  /\ map call_to
       (gateway_calls
          (send_sms_alert (env_failing two_recipients [0%nat]) "MANUAL" "m"
             None empty_world).2)
     = ["+15550000001"].
Proof. vm_compute. repeat split; reflexivity. Qed.
(** The loop only appends calls to the trace. *)
Lemma send_loop_extends (E : env) message recipients :
  forall results last_sid w,
  exists cs,
    (send_loop E message recipients results last_sid w).2 = add_calls cs w.
Proof.
  induction recipients as [|number rest IH]; intros results last_sid w.
  - exists []. cbn. now rewrite add_calls_nil.
  - cbn [send_loop].
    destruct (negb (str_truthy number) || str_contains "XXXXXXXXXX" number).
    + apply IH.
    + unfold messages_create. fold (mk_call E message number).
      destruct (twilio_at E (length (gateway_calls w))
                  (mk_call E message number)) as [sid status|e].
      * edestruct IH as [cs Hcs]. rewrite Hcs.
        exists (mk_call E message number :: cs).
        unfold add_calls. cbn. now rewrite <- app_assoc.
      * now exists [mk_call E message number].
Qed.

(** What the loop hands over as [last_sid] is an id the gateway returned
    for a call of this loop. *)
Lemma send_loop_last_sid (E : env) message recipients :
  forall results last_sid w results' last_sid' w',
    send_loop E message recipients results last_sid w
    = (inr (results', last_sid'), w') ->
    last_sid' = last_sid
    \/ exists i c sid status,
         last_sid' = Some sid /\ (length (gateway_calls w) <= i)%nat
         /\ gateway_calls w' !! i = Some c
         /\ twilio_at E i c = Accepted sid status.
Proof.
  induction recipients as [|number rest IH];
    intros results last_sid w results' last_sid' w' Hs.
  - cbn in Hs. injection Hs as _ -> _. now left.
  - cbn [send_loop] in Hs.
    destruct (negb (str_truthy number) || str_contains "XXXXXXXXXX" number).
    + now apply IH in Hs.
    + unfold messages_create in Hs. fold (mk_call E message number) in Hs.
      destruct (twilio_at E (length (gateway_calls w))
                  (mk_call E message number)) as [sid status|e] eqn:Hr;
        [|discriminate].
      pose proof Hs as Hs'. apply IH in Hs as [-> | Hlater].
      * right. exists (length (gateway_calls w)), (mk_call E message number),
          sid, status.
        repeat split; [lia | | exact Hr].
        destruct (send_loop_extends E message rest
                    (results ++ [{| dl_to := number; dl_sid := sid;
                                    dl_status := status |}]) (Some sid)
                    (add_calls [mk_call E message number] w)) as [cs Hcs].
        change (add_calls [mk_call E message number] w)
          with {| collection := collection w;
                  alerts_collection := alerts_collection w;
                  sms_log_collection := sms_log_collection w;
                  next_oid := next_oid w; clock_reads := clock_reads w;
                  gateway_calls :=
                    gateway_calls w ++ [mk_call E message number] |}
          in Hcs at 1.
        rewrite Hs' in Hcs. cbn [snd] in Hcs. rewrite Hcs. cbn [add_calls gateway_calls].
        rewrite <- app_assoc.
        now rewrite lookup_app_r, Nat.sub_diag by lia.
      * right. destruct Hlater as (i & c & sid' & status' & -> & Hi & Hl & Ha).
        exists i, c, sid', status'. cbn [gateway_calls] in Hi.
        rewrite length_app in Hi. cbn [length] in Hi.
        repeat split; [lia | exact Hl | exact Ha].
Qed.

(** A log entry is only ever written for an id the gateway returned to a
    call of the same invocation (the direction of C2 that holds). *)
Lemma log_only_after_acceptance (E : env) (T message : string)
    (rcpts : option (list string)) (w : world) :
  sms_log_collection (send_sms_alert E T message rcpts w).2
  = sms_log_collection w
  \/ exists rec i c status,
       sms_log_collection (send_sms_alert E T message rcpts w).2
       = sms_log_collection w ++ [rec]
       /\ sms_alert_type rec = T
       /\ (length (gateway_calls w) <= i)%nat
       /\ gateway_calls (send_sms_alert E T message rcpts w).2 !! i = Some c
       /\ twilio_at E i c = Accepted (sms_twilio_sid rec) status.
Proof.
  unfold send_sms_alert.
  pose proof (is_on_cooldown_world E T w) as [Hcalls Hlog].
  destruct (_is_on_cooldown E T w) as [cooling w1].
  cbn [fst snd] in Hcalls, Hlog.
  destruct cooling; [now left|].
  destruct (send_loop_extends E message (default (ALERT_RECIPIENTS E) rcpts)
              [] None w1) as [cs Hext].
  destruct (send_loop E message (default (ALERT_RECIPIENTS E) rcpts) [] None w1)
    as [[e | [results last]] w2] eqn:Hs; cbn [snd] in Hext; subst w2.
  - left. cbn [snd add_calls sms_log_collection]. exact Hlog.
  - destruct (str_truthy (default "" last)) eqn:Ht.
    + right. apply send_loop_last_sid in Hs as [-> | Hacc]; [discriminate|].
      destruct Hacc as (i & c & sid & status & -> & Hi & Hl & Ha).
      eexists _, i, c, status.
      cbn [snd _log_sms utcnow fresh_oid set_sms_log add_calls
           sms_log_collection gateway_calls default].
      rewrite Hlog. split; [reflexivity|].
      cbn [sms_alert_type sms_twilio_sid].
      cbn [add_calls gateway_calls] in Hl. rewrite Hcalls in Hi.
      repeat split; [exact Hi | exact Hl | exact Ha].
    + left. cbn [snd add_calls sms_log_collection]. exact Hlog.
Qed.

(** A suppressed dispatch contacts no one and logs nothing. *)
Lemma suppressed_dispatch (E : env) (T message : string)
    (rcpts : option (list string)) (w : world) :
  (_is_on_cooldown E T w).1 = true ->
  (send_sms_alert E T message rcpts w).1 = NotSent "cooldown"
  /\ gateway_calls (send_sms_alert E T message rcpts w).2 = gateway_calls w
  /\ sms_log_collection (send_sms_alert E T message rcpts w).2
     = sms_log_collection w.
Proof.
  intros Hcool. unfold send_sms_alert.
  pose proof (is_on_cooldown_world E T w) as [Hcalls Hlog].
  destruct (_is_on_cooldown E T w) as [cooling w1].
  cbn [fst snd] in *. subst cooling. cbn [fst snd]. auto.
Qed.

(** When no delivery raises and some recipient is valid, the loop hands
    over an id the gateway returned. *)
Lemma send_loop_accepted_last (E : env) message recipients :
  forall results last_sid w results' last_sid' w',
    send_loop E message recipients results last_sid w
    = (inr (results', last_sid'), w') ->
    filter (fun n => valid_number n = true) recipients <> [] ->
    exists i c sid status,
      last_sid' = Some sid /\ (length (gateway_calls w) <= i)%nat
      /\ gateway_calls w' !! i = Some c
      /\ twilio_at E i c = Accepted sid status.
Proof.
  induction recipients as [|number rest IH];
    intros results last_sid w results' last_sid' w' Hs Hne.
  - now rewrite filter_nil in Hne.
  - pose proof Hs as Hs0. cbn [send_loop] in Hs.
    rewrite skip_iff_invalid in Hs. rewrite filter_cons in Hne.
    destruct (decide (valid_number number = true)) as [Hv | Hv].
    + apply send_loop_last_sid in Hs0 as [-> | Hlater]; [|exact Hlater].
      (* the last id is still the initial one: impossible, the call for
         [number] was accepted and replaced it, or a later one did *)
      rewrite Hv in Hs. cbn [negb] in Hs. unfold messages_create in Hs.
      fold (mk_call E message number) in Hs.
      destruct (twilio_at E (length (gateway_calls w))
                  (mk_call E message number)) as [sid status|e] eqn:Hr;
        [|discriminate].
      pose proof Hs as Hs1.
      apply send_loop_last_sid in Hs as [-> | Hlater].
      * destruct (send_loop_extends E message rest
                    (results ++ [{| dl_to := number; dl_sid := sid;
                                    dl_status := status |}]) (Some sid)
                    (add_calls [mk_call E message number] w)) as [cs Hcs].
        change (add_calls [mk_call E message number] w)
          with {| collection := collection w;
                  alerts_collection := alerts_collection w;
                  sms_log_collection := sms_log_collection w;
                  next_oid := next_oid w; clock_reads := clock_reads w;
                  gateway_calls :=
                    gateway_calls w ++ [mk_call E message number] |}
          in Hcs at 1.
        rewrite Hs1 in Hcs. cbn [snd] in Hcs.
        exists (length (gateway_calls w)), (mk_call E message number),
          sid, status.
        repeat split; [lia | | exact Hr].
        rewrite Hcs. cbn [add_calls gateway_calls]. rewrite <- app_assoc.
        now rewrite lookup_app_r, Nat.sub_diag by lia.
      * destruct Hlater as (i & c & sid' & status' & -> & Hi & Hl & Ha).
        exists i, c, sid', status'. cbn [gateway_calls] in Hi.
        rewrite length_app in Hi. cbn [length] in Hi.
        repeat split; [lia | exact Hl | exact Ha].
    + apply not_true_is_false in Hv. rewrite Hv in Hs. cbn [negb] in Hs.
      now apply (IH _ _ _ _ _ _ Hs).
Qed.

(** When no delivery raises, some recipient is valid and the gateway's
    ids are not empty, the dispatch answers [sent: True] and appends one
    record, of the dispatched type, with an id the gateway returned in
    this invocation and the time of the next clock reading. *)
Lemma dispatch_logs_when_none_raises (E : env) (T message : string)
    (rcpts : option (list string)) (w : world) :
  (_is_on_cooldown E T w).1 = false ->
  accepted_from E message (length (gateway_calls w))
    (valid_recipients E rcpts) ->
  valid_recipients E rcpts <> [] ->
  (forall k c status, twilio_at E k c <> Accepted "" status) ->
  exists n results rec i c status,
    (send_sms_alert E T message rcpts w).1 = Sent n results
    /\ sms_log_collection (send_sms_alert E T message rcpts w).2
       = sms_log_collection w ++ [rec]
    /\ sms_alert_type rec = T
    /\ sms_sent_at rec = utcnow_at E (clock_reads (_is_on_cooldown E T w).2)
    /\ (length (gateway_calls w) <= i)%nat
    /\ gateway_calls (send_sms_alert E T message rcpts w).2 !! i = Some c
    /\ twilio_at E i c = Accepted (sms_twilio_sid rec) status.
Proof.
  intros Hcool Hacc Hne Hsid. unfold send_sms_alert, valid_recipients in *.
  pose proof (is_on_cooldown_world E T w) as [Hcalls Hlog].
  destruct (_is_on_cooldown E T w) as [cooling w1] eqn:Hc.
  cbn [fst snd] in *. subst cooling.
  destruct (send_loop_all_accepted E message
              (default (ALERT_RECIPIENTS E) rcpts) [] None w1)
    as (results' & last' & Hs).
  { now rewrite Hcalls. }
  rewrite Hs.
  destruct (send_loop_accepted_last E message _ _ _ _ _ _ _ Hs Hne)
    as (i & c & sid & status & -> & Hi & Hl & Ha).
  assert (Ht : str_truthy sid = true).
  { destruct sid; [|reflexivity]. now apply Hsid in Ha. }
  simpl default. rewrite Ht.
  eexists _, _, _, i, c, status.
  cbn [fst snd _log_sms utcnow fresh_oid set_sms_log add_calls
       sms_log_collection gateway_calls clock_reads sms_alert_type
       sms_sent_at sms_twilio_sid].
  rewrite Hlog.
  repeat split; [now rewrite <- Hcalls | exact Hl | exact Ha].
Qed.

(** C2 fails on the code.  The gateway accepts the message for the first
    recipient and raises on the second: the SMS to the first recipient
    is out, yet no record is written, the answer says [sent: False], and
    the next dispatch of the same type is not suppressed. *)
Theorem partial_delivery_not_logged :
  twilio_at (env_failing two_recipients [1%nat]) 0
    (mk_call (env_failing two_recipients [1%nat]) "m" "+15550000001")
  = Accepted "SM0" "queued"
  /\ map call_to
       (gateway_calls
          (send_sms_alert (env_failing two_recipients [1%nat]) "FLOOD" "m"
             None empty_world).2)
     = ["+15550000001"; "+15550000002"]
  /\ (send_sms_alert (env_failing two_recipients [1%nat]) "FLOOD" "m" None
        empty_world).1
     = NotSent "HTTP 400 invalid number"
  /\ sms_log_collection
       (send_sms_alert (env_failing two_recipients [1%nat]) "FLOOD" "m" None
          empty_world).2
     = []
  /\ (_is_on_cooldown (env_failing two_recipients [1%nat]) "FLOOD"
        (send_sms_alert (env_failing two_recipients [1%nat]) "FLOOD" "m"
           None empty_world).2).1
     = false.
Proof. vm_compute. repeat split; reflexivity. Qed.


(** ** Sensor checks *)

Lemma sensor_candidates_eq (d : sensor_data) (risk ts : string) :
  sensor_candidates d risk ts
  = flood_calls (get_signal d "distance" 999) (ts_fmt_of ts)
    ++ rain_calls (get_signal d "rain_level" 0) (ts_fmt_of ts)
    ++ air_calls (get_signal d "air_quality" 0) (ts_fmt_of ts)
    ++ fire_calls (get_signal d "temperature" 0) (ts_fmt_of ts)
    ++ risk_calls risk (get_signal d "temperature" 0)
         (get_signal d "rain_level" 0) (get_signal d "distance" 999)
         (get_signal d "air_quality" 0) (ts_fmt_of ts).
Proof.
  unfold sensor_candidates, sensor_checks, flood_calls, rain_calls, air_calls,
    fire_calls, risk_calls. fold (ts_fmt_of ts).
  repeat match goal with
         | |- context [if ?c then _ else _] => destruct c
         end; reflexivity.
Qed.

(** [check_and_send_sensor_sms] hands its candidates, in order, to
    [send_sms_alert]: whatever [send] does, the checks amount to sending
    the candidates one after the other. *)
Lemma sensor_checks_calls {S : Type} (send : string -> string -> S -> S)
    (d : sensor_data) (risk ts : string) (s : S) :
  sensor_checks send d risk ts s
  = foldl (fun s c => send c.1 c.2 s) s (sensor_candidates d risk ts).
Proof.
  unfold sensor_candidates, sensor_checks.
  repeat match goal with
         | |- context [if ?c then _ else _] => destruct c
         end; reflexivity.
Qed.

Lemma of_type_app T cs cs' : of_type T (cs ++ cs') = of_type T cs ++ of_type T cs'.
Proof. apply filter_app. Qed.

Lemma of_type_same T (l : list candidate) :
  Forall (fun c => c.1 = T) l -> of_type T l = l.
Proof.
  induction 1 as [|c l Hc _ IH]; [reflexivity|].
  unfold of_type in *. rewrite filter_cons, decide_True by exact Hc.
  f_equal. exact IH.
Qed.

Lemma of_type_other T (l : list candidate) :
  Forall (fun c => c.1 <> T) l -> of_type T l = [].
Proof.
  induction 1 as [|c l Hc _ IH]; [reflexivity|].
  unfold of_type in *. rewrite filter_cons, decide_False by exact Hc.
  exact IH.
Qed.

Lemma flood_calls_type x f : Forall (fun c => c.1 = "FLOOD") (flood_calls x f).
Proof. unfold flood_calls. repeat case_match; repeat constructor. Qed.

Lemma rain_calls_type x f : Forall (fun c => c.1 = "RAIN") (rain_calls x f).
Proof. unfold rain_calls. repeat case_match; repeat constructor. Qed.

Lemma air_calls_type x f : Forall (fun c => c.1 = "AIR") (air_calls x f).
Proof. unfold air_calls. repeat case_match; repeat constructor. Qed.

Lemma fire_calls_type x f : Forall (fun c => c.1 = "FIRE") (fire_calls x f).
Proof. unfold fire_calls. repeat case_match; repeat constructor. Qed.

Lemma risk_calls_type r x1 x2 x3 x4 f :
  Forall (fun c => c.1 = "RISK_HIGH") (risk_calls r x1 x2 x3 x4 f).
Proof. unfold risk_calls. repeat case_match; repeat constructor. Qed.

Lemma of_type_calls T T' (l : list candidate) :
  Forall (fun c => c.1 = T') l ->
  of_type T l = if decide (T' = T) then l else [].
Proof.
  intros Hl. destruct (decide (T' = T)) as [<- | Hne].
  - now apply of_type_same.
  - apply of_type_other. eapply Forall_impl; [exact Hl|].
    cbn. intros c ->. exact Hne.
Qed.

(** The candidates of one type come from the one check of that type. *)
Lemma of_type_candidates (d : sensor_data) (risk ts T : string) :
  of_type T (sensor_candidates d risk ts)
  = (if decide ("FLOOD" = T)
     then flood_calls (get_signal d "distance" 999) (ts_fmt_of ts) else [])
    ++ (if decide ("RAIN" = T)
        then rain_calls (get_signal d "rain_level" 0) (ts_fmt_of ts) else [])
    ++ (if decide ("AIR" = T)
        then air_calls (get_signal d "air_quality" 0) (ts_fmt_of ts) else [])
    ++ (if decide ("FIRE" = T)
        then fire_calls (get_signal d "temperature" 0) (ts_fmt_of ts) else [])
    ++ (if decide ("RISK_HIGH" = T)
        then risk_calls risk (get_signal d "temperature" 0)
               (get_signal d "rain_level" 0) (get_signal d "distance" 999)
               (get_signal d "air_quality" 0) (ts_fmt_of ts)
        else []).
Proof.
  rewrite sensor_candidates_eq, !of_type_app.
  rewrite (of_type_calls T "FLOOD") by apply flood_calls_type.
  rewrite (of_type_calls T "RAIN") by apply rain_calls_type.
  rewrite (of_type_calls T "AIR") by apply air_calls_type.
  rewrite (of_type_calls T "FIRE") by apply fire_calls_type.
  now rewrite (of_type_calls T "RISK_HIGH") by apply risk_calls_type.
Qed.

Lemma calls_length_flood x f : (length (flood_calls x f) <= 1)%nat.
Proof. unfold flood_calls. repeat case_match; cbn; lia. Qed.

Lemma calls_length_rain x f : (length (rain_calls x f) <= 1)%nat.
Proof. unfold rain_calls. repeat case_match; cbn; lia. Qed.

Lemma calls_length_air x f : (length (air_calls x f) <= 1)%nat.
Proof. unfold air_calls. repeat case_match; cbn; lia. Qed.

Lemma calls_length_fire x f : (length (fire_calls x f) <= 1)%nat.
Proof. unfold fire_calls. repeat case_match; cbn; lia. Qed.

(** The texts of the two branches of a pair differ. *)
Lemma flood_texts_differ x f x' f' :
  flood_critical_text x f <> flood_warning_text x' f'.
Proof.
  intros H. apply (f_equal (String.get 6)) in H. lazy in H. discriminate.
Qed.

Lemma rain_texts_differ x f x' f' :
  rain_critical_text x f <> rain_advisory_text x' f'.
Proof.
  intros H. apply (f_equal (String.get 6)) in H. lazy in H. discriminate.
Qed.

Lemma air_texts_differ x f x' f' :
  air_critical_text x f <> air_warning_text x' f'.
Proof.
  intros H. apply (f_equal (String.get 18)) in H. lazy in H. discriminate.
Qed.

Lemma fire_texts_differ x f x' f' :
  fire_critical_text x f <> heat_warning_text x' f'.
Proof.
  intros H. apply (f_equal (String.get 6)) in H. lazy in H. discriminate.
Qed.

(** A call of type [T] among the candidates is among those of type [T]. *)
Lemma candidate_of_type (cs : list candidate) (T text : string) :
  (T, text) ∈ cs -> (T, text) ∈ of_type T cs.
Proof. intros Hin. unfold of_type. apply list_elem_of_filter. auto. Qed.

Lemma only_call_excludes (cs : list candidate) (T text text' : string) :
  of_type T cs = [(T, text)] -> text <> text' -> (T, text') ∉ cs.
Proof.
  intros Hof Hne Hin. apply candidate_of_type in Hin. rewrite Hof in Hin.
  apply list_elem_of_singleton in Hin. apply (f_equal snd) in Hin.
  cbn [snd] in Hin. congruence.
Qed.

(** C4.  For every reading, at most one candidate is emitted for each of
    FLOOD, RAIN, AIR and FIRE; when the critical cutoff of a signal is
    met ([<=] for distance, [>=] for the others) the one candidate of its
    type is the call with the CRITICAL text, and no call with the
    warning text of that signal is made; for distance 40 (critical
    cutoff 50) this is exactly one FLOOD/CRITICAL candidate. *)
Theorem one_candidate_per_signal (d : sensor_data) (risk ts : string) :
  (forall T, T ∈ ["FLOOD"; "RAIN"; "AIR"; "FIRE"] ->
     (length (of_type T (sensor_candidates d risk ts)) <= 1)%nat)
  /\ (get_signal d "distance" 999 <= critical (THRESHOLDS !!! "distance") ->
      of_type "FLOOD" (sensor_candidates d risk ts)
      = [("FLOOD",
          flood_critical_text (get_signal d "distance" 999) (ts_fmt_of ts))]
      /\ forall x f,
           ("FLOOD", flood_warning_text x f) ∉ sensor_candidates d risk ts)
  /\ (critical (THRESHOLDS !!! "rain_level") <= get_signal d "rain_level" 0 ->
      of_type "RAIN" (sensor_candidates d risk ts)
      = [("RAIN",
          rain_critical_text (get_signal d "rain_level" 0) (ts_fmt_of ts))]
      /\ forall x f,
           ("RAIN", rain_advisory_text x f) ∉ sensor_candidates d risk ts)
  /\ (critical (THRESHOLDS !!! "air_quality") <= get_signal d "air_quality" 0 ->
      of_type "AIR" (sensor_candidates d risk ts)
      = [("AIR",
          air_critical_text (get_signal d "air_quality" 0) (ts_fmt_of ts))]
      /\ forall x f,
           ("AIR", air_warning_text x f) ∉ sensor_candidates d risk ts)
  /\ (critical (THRESHOLDS !!! "temperature") <= get_signal d "temperature" 0 ->
      of_type "FIRE" (sensor_candidates d risk ts)
      = [("FIRE",
          fire_critical_text (get_signal d "temperature" 0) (ts_fmt_of ts))]
      /\ forall x f,
           ("FIRE", heat_warning_text x f) ∉ sensor_candidates d risk ts)
  /\ (get_signal d "distance" 999 = 40 ->
      critical (THRESHOLDS !!! "distance") = 50
      /\ of_type "FLOOD" (sensor_candidates d risk ts)
         = [("FLOOD", flood_critical_text 40 (ts_fmt_of ts))]
      /\ forall x f,
           ("FLOOD", flood_warning_text x f) ∉ sensor_candidates d risk ts).
Proof.
  pose proof (of_type_candidates d risk ts "FLOOD") as HF.
  pose proof (of_type_candidates d risk ts "RAIN") as HR.
  pose proof (of_type_candidates d risk ts "AIR") as HA.
  pose proof (of_type_candidates d risk ts "FIRE") as HI.
  repeat (rewrite decide_True in HF, HR, HA, HI by reflexivity
          || rewrite decide_False in HF, HR, HA, HI by discriminate).
  rewrite ?app_nil_r in HF, HR, HA, HI. cbn [app] in HR, HA, HI.
  assert (Hflood : get_signal d "distance" 999
                   <= critical (THRESHOLDS !!! "distance") ->
                   of_type "FLOOD" (sensor_candidates d risk ts)
                   = [("FLOOD",
                       flood_critical_text (get_signal d "distance" 999)
                         (ts_fmt_of ts))]
                   /\ forall x f,
                        ("FLOOD", flood_warning_text x f)
                        ∉ sensor_candidates d risk ts).
  { intros H. apply Z.leb_le in H. unfold flood_calls in HF.
    rewrite H in HF. split; [exact HF|].
    intros x f. eapply only_call_excludes; [exact HF|].
    apply flood_texts_differ. }
  split; [|split; [exact Hflood|split; [|split; [|split]]]].
  - intros T HT.
    repeat (apply elem_of_cons in HT as [-> | HT]);
      [| | | | now apply elem_of_nil in HT];
      rewrite ?HF, ?HR, ?HA, ?HI;
      first [ apply calls_length_flood | apply calls_length_rain
            | apply calls_length_air | apply calls_length_fire ].
  - intros H. apply Z.geb_le in H. unfold rain_calls in HR.
    rewrite H in HR. split; [exact HR|].
    intros x f. eapply only_call_excludes; [exact HR|].
    apply rain_texts_differ.
  - intros H. apply Z.geb_le in H. unfold air_calls in HA.
    rewrite H in HA. split; [exact HA|].
    intros x f. eapply only_call_excludes; [exact HA|].
    apply air_texts_differ.
  - intros H. apply Z.geb_le in H. unfold fire_calls in HI.
    rewrite H in HI. split; [exact HI|].
    intros x f. eapply only_call_excludes; [exact HI|].
    apply fire_texts_differ.
  - intros H40. split; [reflexivity|].
    rewrite <- H40. apply Hflood. rewrite H40. vm_compute. congruence.
Qed.

(** The reading of the scenario: distance 40 gives one FLOOD call, with
    the critical text. *)
Lemma one_candidate_per_signal_witness :
  (length
     (of_type "FLOOD"
        (sensor_candidates reading_distance_40 "LOW" "2024-01-01T00:00:00"))
   <= 1)%nat
  /\ of_type "FLOOD"
       (sensor_candidates reading_distance_40 "LOW" "2024-01-01T00:00:00")
     = [("FLOOD", flood_critical_text 40 "2024-01-01 00:00:00 UTC")].
Proof.
  destruct (one_candidate_per_signal reading_distance_40 "LOW"
              "2024-01-01T00:00:00") as (H1 & _ & _ & _ & _ & H40).
  split.
  - apply H1. apply elem_of_cons. now left.
  - apply H40. reflexivity.
Defined.

(** The other scenarios of the sensor checks: rain 75 gives one RAIN
    call with the advisory text; a HIGH classification with nominal
    signals gives the RISK_HIGH call alone. *)
Lemma sensor_scenarios :
  sensor_candidates reading_rain_75 "LOW" "2024-01-01T00:00:00"
  = [("RAIN", rain_advisory_text 75 "2024-01-01 00:00:00 UTC")]
  /\ map fst
       (sensor_candidates
          {| signals := ∅; timestamp := None; risk := None |} "HIGH"
          "2024-01-01T00:00:00")
     = ["RISK_HIGH"].
Proof. split; reflexivity. Qed.

(** ** Weekly risk *)

Lemma score_range (r : string) : 0 <= default 0 (RISK_SCORE_MAP !! r) <= 3.
Proof.
  destruct (RISK_SCORE_MAP !! r) as [v|] eqn:Hr; simpl default; [|lia].
  apply elem_of_list_to_map_2 in Hr.
  repeat (apply elem_of_cons in Hr as [Heq | Hr];
          [injection Heq as _ ->; lia|]).
  now apply elem_of_nil in Hr.
Qed.

Lemma py_round_div_range n d :
  0 < d -> 0 <= n <= 3 * d -> 0 <= py_round_div n d <= 3.
Proof.
  intros Hd Hn. unfold py_round_div.
  pose proof (Z.div_mod n d ltac:(lia)) as Hdm.
  pose proof (Z.mod_pos_bound n d Hd) as Hr.
  assert (Hq : 0 <= n / d <= 3) by (split; [apply Z.div_pos; lia | nia]).
  assert (Hq3 : n / d = 3 -> n mod d = 0) by nia.
  repeat case_match;
    repeat match goal with
           | H : (_ <? _) = true |- _ => apply Z.ltb_lt in H
           | H : (_ <? _) = false |- _ => apply Z.ltb_ge in H
           end; lia.
Qed.

(** [py_round_div] is a nearest integer, and ties go to the even one. *)
Lemma py_round_div_nearest n d :
  0 < d -> - d <= 2 * n - 2 * d * py_round_div n d <= d.
Proof.
  intros Hd. unfold py_round_div.
  pose proof (Z.div_mod n d ltac:(lia)) as Hdm.
  pose proof (Z.mod_pos_bound n d Hd) as Hr.
  repeat case_match;
    repeat match goal with
           | H : (_ <? _) = true |- _ => apply Z.ltb_lt in H
           | H : (_ <? _) = false |- _ => apply Z.ltb_ge in H
           end; nia.
Qed.

Lemma py_round_div_ties :
  py_round_div 1 2 = 0 /\ py_round_div 3 2 = 2 /\ py_round_div 5 2 = 2
  /\ py_round_div 7 2 = 4.
Proof. repeat split; reflexivity. Qed.

Lemma label_of_score z :
  0 <= z <= 3 ->
  default "NONE" (RISK_LABEL_MAP !! z) ∈ ["LOW"; "MEDIUM"; "HIGH"; "UNKNOWN"].
Proof.
  intros Hz.
  assert (E : z = 0 \/ z = 1 \/ z = 2 \/ z = 3) by lia.
  destruct E as [-> | [-> | [-> | ->]]];
    match goal with
    | |- ?x ∈ _ => let v := eval vm_compute in x in change x with v
    end; rewrite !elem_of_cons; auto 10.
Qed.

Lemma day_entry_label (b : bucket) :
  bucket_ok b ->
  (wr_count (day_entry b) = 0 -> wr_label (day_entry b) = "NONE")
  /\ (wr_count (day_entry b) <> 0 ->
      0 < wr_count (day_entry b)
      /\ wr_label (day_entry b) ∈ ["LOW"; "MEDIUM"; "HIGH"; "UNKNOWN"]).
Proof.
  intros [Hc Ht]. unfold day_entry. cbn [wr_count wr_label]. split.
  - intros ->. reflexivity.
  - intros Hne. split; [lia|].
    destruct (Z.ltb_spec 0 (count b)); [|lia].
    apply label_of_score, py_round_div_range; lia.
Qed.

Lemma init_buckets_ok week_start : buckets_ok (init_buckets week_start).
Proof.
  unfold init_buckets.
  assert (H0 : buckets_ok ∅) by (intros k b Hk; now rewrite lookup_empty in Hk).
  revert H0. generalize (∅ : gmap string bucket).
  induction week_days as [|i l IH]; intros bs Hbs; [exact Hbs|].
  cbn [foldl]. apply IH. intros k b Hk.
  destruct (decide (strftime_Ymd (week_start + timedelta_days i) = k)) as [<-|Hne].
  - rewrite lookup_insert_eq in Hk. injection Hk as <-.
    unfold bucket_ok; cbn; lia.
  - rewrite lookup_insert_ne in Hk by exact Hne. now apply (Hbs k).
Qed.

Lemma add_reading_ok bs doc : buckets_ok bs -> buckets_ok (add_reading bs doc).
Proof.
  intros Hbs. unfold add_reading.
  destruct (timestamp doc.2) as [t|]; [|exact Hbs].
  destruct (bs !! strftime_Ymd t) as [b0|] eqn:Hb0; [|exact Hbs].
  intros k b Hk.
  destruct (decide (strftime_Ymd t = k)) as [<-|Hne].
  - rewrite lookup_insert_eq in Hk. injection Hk as <-.
    destruct (Hbs _ _ Hb0) as [Hc Ht].
    pose proof (score_range (default "UNKNOWN" (risk doc.2))).
    unfold bucket_ok; cbn [count total_score]; lia.
  - rewrite lookup_insert_ne in Hk by exact Hne. now apply (Hbs k).
Qed.

Lemma foldl_add_reading_ok docs : forall bs,
  buckets_ok bs -> buckets_ok (foldl add_reading bs docs).
Proof.
  induction docs as [|doc docs IH]; intros bs Hbs; [exact Hbs|].
  cbn [foldl]. now apply IH, add_reading_ok.
Qed.

Lemma lookup_total_ok (bs : gmap string bucket) k :
  buckets_ok bs -> bucket_ok (bs !!! k).
Proof.
  intros Hbs. rewrite lookup_total_alt.
  destruct (bs !! k) as [b|] eqn:Hk; simpl default.
  - now apply (Hbs k).
  - unfold bucket_ok; cbn; lia.
Qed.

Lemma init_buckets_untouched week_start k :
  bucket_untouched k (init_buckets week_start).
Proof.
  unfold init_buckets.
  assert (H0 : bucket_untouched k ∅)
    by (intros b Hk; now rewrite lookup_empty in Hk).
  revert H0. generalize (∅ : gmap string bucket).
  induction week_days as [|i l IH]; intros bs Hbs; [exact Hbs|].
  cbn [foldl]. apply IH. intros b Hk.
  destruct (decide (strftime_Ymd (week_start + timedelta_days i) = k)) as [<-|Hne].
  - rewrite lookup_insert_eq in Hk. now injection Hk as <-.
  - rewrite lookup_insert_ne in Hk by exact Hne. now apply Hbs.
Qed.

Lemma foldl_add_reading_untouched k docs : forall bs,
  (forall doc t, doc ∈ docs -> timestamp doc.2 = Some t -> strftime_Ymd t <> k) ->
  bucket_untouched k bs -> bucket_untouched k (foldl add_reading bs docs).
Proof.
  induction docs as [|doc docs IH]; intros bs Hno Hbs; [exact Hbs|].
  cbn [foldl]. apply IH.
  - intros doc' t Hin. apply Hno. now apply list_elem_of_further.
  - unfold add_reading.
    destruct (timestamp doc.2) as [t|] eqn:Ht; [|exact Hbs].
    destruct (bs !! strftime_Ymd t) as [b0|]; [|exact Hbs].
    intros b Hk. rewrite lookup_insert_ne in Hk; [now apply Hbs|].
    apply (Hno doc t); [apply list_elem_of_here | exact Ht].
Qed.

Lemma init_buckets_present week_start i :
  i ∈ week_days ->
  is_Some (init_buckets week_start
           !! strftime_Ymd (week_start + timedelta_days i)).
Proof.
  unfold init_buckets. generalize (∅ : gmap string bucket).
  assert (H : forall l (bs : gmap string bucket) k,
             (k ∈ map (fun i => strftime_Ymd (week_start + timedelta_days i)) l
              \/ is_Some (bs !! k)) ->
             is_Some
               (foldl
                  (fun (bs : gmap string bucket) i =>
                     <[strftime_Ymd (week_start + timedelta_days i) :=
                         {| name := strftime_a (week_start + timedelta_days i);
                            total_score := 0; count := 0 |}]> bs)
                  bs l !! k)).
  { induction l as [|j l IH]; intros bs k [Hk | Hk]; cbn [foldl map] in *.
    - now apply elem_of_nil in Hk.
    - exact Hk.
    - apply IH. apply elem_of_cons in Hk as [-> | Hk]; [right|now left].
      rewrite lookup_insert_eq. eauto.
    - apply IH. right.
      destruct (decide (strftime_Ymd (week_start + timedelta_days j) = k))
        as [<-|Hne].
      + rewrite lookup_insert_eq. eauto.
      + now rewrite lookup_insert_ne. }
  intros bs Hi. apply H. left.
  apply list_elem_of_fmap. exists i. auto.
Qed.

(** The body of the second loop adds one to the bucket of the document's
    key, and leaves the other counts as they are. *)
Lemma add_reading_count k bs doc b :
  bs !! k = Some b ->
  exists b',
    add_reading bs doc !! k = Some b'
    /\ count b'
       = count b + (if decide (day_key_of doc = Some k) then 1 else 0).
Proof.
  intros Hb. destruct (decide (day_key_of doc = Some k)) as [Hk | Hk];
    unfold day_key_of in Hk; unfold add_reading;
    destruct (timestamp doc.2) as [t|]; cbn in Hk.
  - injection Hk as Hk. rewrite Hk, Hb, lookup_insert_eq.
    eexists. split; [reflexivity|]. cbn [count]. lia.
  - discriminate.
  - assert (strftime_Ymd t <> k) by congruence.
    exists b. split; [|lia].
    destruct (bs !! strftime_Ymd t); [now rewrite lookup_insert_ne | exact Hb].
  - exists b. split; [exact Hb | lia].
Qed.

Lemma foldl_add_reading_count k docs : forall bs b,
  bs !! k = Some b ->
  exists b',
    foldl add_reading bs docs !! k = Some b'
    /\ count b'
       = count b
         + Z.of_nat
             (length (filter (fun doc => day_key_of doc = Some k) docs)).
Proof.
  induction docs as [|doc docs IH]; intros bs b Hb; cbn [foldl].
  - exists b. split; [exact Hb|]. cbn. lia.
  - destruct (add_reading_count k bs doc b Hb) as (b1 & Hb1 & Hc1).
    destruct (IH _ _ Hb1) as (b' & Hb' & Hc').
    exists b'. split; [exact Hb'|]. rewrite Hc', Hc1, filter_cons.
    destruct (decide (day_key_of doc = Some k)); cbn [length]; lia.
Qed.

(** In terms of instants: the documents counted for a day are the stored
    readings taken on that calendar day, not before the start of the
    window. *)
Lemma readings_on_instants (week_start day : datetime)
    (docs : list (nat * sensor_data)) (doc : nat * sensor_data) :
  valid_datetime week_start -> valid_datetime day ->
  (forall d t, d ∈ docs -> timestamp d.2 = Some t -> valid_datetime t) ->
  doc ∈ readings_on (isoformat week_start) (strftime_Ymd day) docs
  <-> doc ∈ docs
      /\ exists t,
           timestamp doc.2 = Some t /\ week_start <= t
           /\ date_of t = date_of day.
Proof.
  intros Vw Vd Vdocs. unfold readings_on, day_key_of, since_query.
  rewrite !list_elem_of_filter. split.
  - intros (Hk & Hq & Hin).
    destruct (timestamp doc.2) as [t|] eqn:Ht; [|discriminate].
    change (Some (strftime_Ymd t) = Some (strftime_Ymd day)) in Hk.
    apply (inj Some) in Hk.
    pose proof (Vdocs doc t Hin Ht) as Vt.
    rewrite str_ge_isoformat in Hq by assumption. apply Z.leb_le in Hq.
    split; [exact Hin|]. exists t.
    split; [reflexivity|]. split; [exact Hq|].
    apply strftime_Ymd_inj; assumption.
  - intros (Hin & t & Ht & Hle & Hd). rewrite Ht.
    change (strftime_Ymd <$> Some t) with (Some (strftime_Ymd t)).
    pose proof (Vdocs doc t Hin Ht) as Vt.
    rewrite str_ge_isoformat by assumption.
    split; [|split; [now apply Z.leb_le | exact Hin]].
    f_equal. unfold strftime_Ymd, dt_year, dt_month, dt_day. now rewrite Hd.
Qed.

(** C6 (as amended).  The summary has seven entries.  An entry with count
    0 has label "NONE"; an entry with another count has a positive count
    and a label among LOW, MEDIUM, HIGH and UNKNOWN (the "NONE" default
    of the lookup is what cannot be reached); a day on which no stored
    reading falls reports count 0 and label "NONE"; and the count of a
    day is the number of documents of the query that fall on it. *)
Theorem weekly_risk_labels (E : env) (w : world) :
  length (weekly_risk E w).1 = 7%nat
  /\ (forall r, r ∈ (weekly_risk E w).1 ->
        (wr_count r = 0 -> wr_label r = "NONE")
        /\ (wr_count r <> 0 ->
            0 < wr_count r
            /\ wr_label r ∈ ["LOW"; "MEDIUM"; "HIGH"; "UNKNOWN"]))
  /\ (forall i r,
        (weekly_risk E w).1 !! i = Some r ->
        (forall doc t,
            doc ∈ collection w -> timestamp doc.2 = Some t ->
            strftime_Ymd t
            <> strftime_Ymd
                 (midnight (utcnow_at E (clock_reads w)) - timedelta_days 6
                  + timedelta_days (Z.of_nat i))) ->
        wr_count r = 0 /\ wr_label r = "NONE")
  /\ (forall i r,
        (weekly_risk E w).1 !! i = Some r ->
        wr_count r
        = Z.of_nat
            (length
               (readings_on
                  (isoformat
                     (midnight (utcnow_at E (clock_reads w))
                      - timedelta_days 6))
                  (strftime_Ymd
                     (midnight (utcnow_at E (clock_reads w)) - timedelta_days 6
                      + timedelta_days (Z.of_nat i)))
                  (collection w)))).
Proof.
  unfold weekly_risk. cbn [utcnow fst snd collection].
  set (week_start := midnight (utcnow_at E (clock_reads w)) - timedelta_days 6).
  set (bs := weekly_buckets (utcnow_at E (clock_reads w)) (collection w)).
  assert (Hok : buckets_ok bs).
  { subst bs. unfold weekly_buckets.
    apply foldl_add_reading_ok, init_buckets_ok. }
  assert (Hday : forall i z, week_days !! i = Some z -> z = Z.of_nat i).
  { intros i z Hz.
    do 7 (destruct i as [|i]; [now injection Hz as <-|]). discriminate. }
  split; [reflexivity|]. split; [|split].
  - intros r Hr. apply list_elem_of_fmap in Hr as (i & -> & _).
    apply day_entry_label, lookup_total_ok, Hok.
  - intros i r Hi Hno.
    assert (Hc : wr_count r = 0).
    { rewrite list_lookup_fmap in Hi.
      destruct (week_days !! i) as [z|] eqn:Hz; [|discriminate].
      injection Hi as <-. apply Hday in Hz as ->.
      cbn [day_entry wr_count]. rewrite lookup_total_alt.
      destruct (bs !! _) as [b|] eqn:Hb; [|reflexivity].
      simpl default. revert Hb. subst bs. unfold weekly_buckets.
      fold week_start.
      apply foldl_add_reading_untouched; [|apply init_buckets_untouched].
      intros doc t Hin. apply Hno.
      now apply list_elem_of_filter in Hin as [_ Hin]. }
    split; [exact Hc|].
    apply list_elem_of_lookup_2 in Hi.
    apply list_elem_of_fmap in Hi as (j & -> & _).
    now apply day_entry_label; [apply lookup_total_ok, Hok|].
  - intros i r Hi. rewrite list_lookup_fmap in Hi.
    destruct (week_days !! i) as [z|] eqn:Hz; [|discriminate].
    injection Hi as <-. pose proof (Hday _ _ Hz) as ->.
    apply list_elem_of_lookup_2 in Hz.
    destruct (init_buckets_present week_start _ Hz) as [b0 Hb0].
    pose proof (init_buckets_untouched week_start _ b0 Hb0) as Hc0.
    cbn [day_entry wr_count]. rewrite lookup_total_alt.
    subst bs. unfold weekly_buckets, readings_on. fold week_start.
    destruct (foldl_add_reading_count _
                (filter (fun doc => since_query (isoformat week_start) doc = true)
                   (collection w)) _ _ Hb0) as (b' & Hb' & Hc').
    rewrite Hb'. simpl default. rewrite Hc', Hc0. lia.
Qed.

(** With nothing stored, the first day of the week reports count 0 and
    label "NONE". *)
Lemma weekly_risk_labels_witness :
  exists r,
    (weekly_risk env_2024 empty_world).1 !! 0%nat = Some r
    /\ wr_count r = 0 /\ wr_label r = "NONE".
Proof.
  destruct ((weekly_risk env_2024 empty_world).1 !! 0%nat) as [r|] eqn:Hr;
    [|vm_compute in Hr; discriminate Hr].
  exists r. split; [reflexivity|].
  destruct (weekly_risk_labels env_2024 empty_world) as (_ & _ & H & _).
  apply (H 0%nat r Hr).
  intros doc t Hin. now apply elem_of_nil in Hin.
Defined.

(** C6, as stated, fails: a reading the classifier could not label is
    stored with risk "UNKNOWN" and scores 0, so its day has a nonzero
    count and the label "UNKNOWN". *)
Lemma weekly_unknown_counterexample :
  map (fun doc => risk doc.2) (collection world_unlabelled_reading)
  = [Some "UNKNOWN"]
  /\ last (weekly_risk env_2024 world_unlabelled_reading).1
     = Some {| wr_name := "Mon"; wr_total := 0; wr_label := "UNKNOWN";
               wr_count := 1 |}.
Proof. vm_compute. split; reflexivity. Qed.

(** ** Sorting *)

Section StableSort.
Context {A : Type} (le : A -> A -> bool).
Hypothesis le_total : forall a b, le a b = true \/ le b a = true.
Hypothesis le_trans :
  forall a b c, le a b = true -> le b c = true -> le a c = true.

Lemma insert_sorted_Forall (P : A -> Prop) x l :
  Forall P (insert_sorted le x l) <-> P x /\ Forall P l.
Proof.
  induction l as [|y l IH]; cbn [insert_sorted].
  - rewrite Forall_singleton, Forall_nil. tauto.
  - destruct (le x y).
    + now rewrite Forall_cons.
    + rewrite !Forall_cons, IH. tauto.
Qed.

Lemma stable_sort_Forall (P : A -> Prop) l :
  Forall P (stable_sort le l) <-> Forall P l.
Proof.
  induction l as [|x l IH]; cbn [stable_sort]; [tauto|].
  now rewrite insert_sorted_Forall, Forall_cons, IH.
Qed.

Lemma insert_sorted_Permutation x l : insert_sorted le x l ≡ₚ x :: l.
Proof.
  induction l as [|y l IH]; cbn [insert_sorted]; [reflexivity|].
  destruct (le x y); [reflexivity|].
  rewrite IH. apply Permutation_swap.
Qed.

Lemma stable_sort_Permutation l : stable_sort le l ≡ₚ l.
Proof.
  induction l as [|x l IH]; cbn [stable_sort]; [reflexivity|].
  now rewrite insert_sorted_Permutation, IH.
Qed.

Lemma insert_sorted_stable (R : A -> A -> Prop) x l :
  StronglySorted (in_stable_order le R) l -> Forall (R x) l ->
  StronglySorted (in_stable_order le R) (insert_sorted le x l).
Proof.
  induction l as [|y l IH]; intros Hs Hx; cbn [insert_sorted].
  - repeat constructor.
  - apply StronglySorted_inv in Hs as [Hs Hy].
    apply Forall_cons in Hx as [Hxy Hxl].
    destruct (le x y) eqn:Hle.
    + constructor; [now constructor|].
      constructor; [split; auto|].
      rewrite Forall_forall in *. intros z Hz.
      destruct (Hy z Hz) as [Hyz _].
      split; [eauto | intros _; now apply Hxl].
    + constructor; [now apply IH|].
      apply insert_sorted_Forall. split; [|exact Hy].
      destruct (le_total x y) as [Hc | Hc]; [congruence|].
      split; [exact Hc | congruence].
Qed.

Lemma stable_sort_stable (R : A -> A -> Prop) l :
  StronglySorted R l -> StronglySorted (in_stable_order le R) (stable_sort le l).
Proof.
  induction l as [|x l IH]; intros Hs; cbn [stable_sort]; [constructor|].
  apply StronglySorted_inv in Hs as [Hs Hx].
  apply insert_sorted_stable; [now apply IH|].
  now apply stable_sort_Forall.
Qed.

End StableSort.

Lemma StronglySorted_take {A} (R : A -> A -> Prop) n l :
  StronglySorted R l -> StronglySorted R (take n l).
Proof.
  revert n. induction l as [|x l IH]; intros n Hs.
  - now rewrite take_nil.
  - destruct n as [|n]; [constructor|]. cbn [take].
    apply StronglySorted_inv in Hs as [Hs Hx].
    constructor; [now apply IH | now apply Forall_take].
Qed.

Lemma StronglySorted_lookup {A} (R : A -> A -> Prop) l :
  StronglySorted R l ->
  forall i j a b,
    (i < j)%nat -> l !! i = Some a -> l !! j = Some b -> R a b.
Proof.
  induction 1 as [|x l Hs IH Hx]; intros i j a b Hij Hi Hj.
  - discriminate.
  - destruct j as [|j]; [lia|]. cbn in Hj.
    destruct i as [|i].
    + injection Hi as <-. rewrite Forall_forall in Hx.
      apply Hx. now apply list_elem_of_lookup_2 in Hj.
    + cbn in Hi. apply (IH i j); [lia | assumption | assumption].
Qed.

Lemma StronglySorted_weaken {A} (R R' : A -> A -> Prop) l :
  (forall a b, R a b -> R' a b) -> StronglySorted R l -> StronglySorted R' l.
Proof.
  intros Himp. induction 1 as [|x l Hs IH Hx]; constructor; [exact IH|].
  eapply Forall_impl; [exact Hx | apply Himp].
Qed.

Lemma NoDup_StronglySorted {A B} (f : A -> B) (l : list A) :
  NoDup (map f l) -> StronglySorted (fun a b => f a <> f b) l.
Proof.
  induction l as [|x l IH]; intros Hnd; [constructor|].
  cbn [map] in Hnd. apply NoDup_cons in Hnd as [Hx Hnd].
  constructor; [now apply IH|].
  apply Forall_forall. intros y Hy Heq. apply Hx. rewrite Heq.
  now apply list_elem_of_fmap_2.
Qed.

(** ** Alerts *)

Lemma oid_desc_total a b : oid_desc a b = true \/ oid_desc b a = true.
Proof. unfold oid_desc. destruct (Nat.leb_spec (al_oid b) (al_oid a)); [now left|right]. apply Nat.leb_le. lia. Qed.

Lemma oid_desc_trans a b c :
  oid_desc a b = true -> oid_desc b c = true -> oid_desc a c = true.
Proof. unfold oid_desc. rewrite !Nat.leb_le. lia. Qed.

Lemma key_le_spec a b :
  key_le a b = true
  <-> (a.1 < b.1)%nat \/ (a.1 = b.1 /\ (a.2 <= b.2)%nat).
Proof.
  unfold key_le.
  rewrite orb_true_iff, andb_true_iff, Nat.ltb_lt, Nat.eqb_eq, Nat.leb_le.
  tauto.
Qed.

Lemma alert_le_total a b : alert_le a b = true \/ alert_le b a = true.
Proof. unfold alert_le. rewrite !key_le_spec. lia. Qed.

Lemma alert_le_trans a b c :
  alert_le a b = true -> alert_le b c = true -> alert_le a c = true.
Proof. unfold alert_le. rewrite !key_le_spec. lia. Qed.

Lemma get_alerts_sorted (w : world) :
  NoDup (map al_oid (alerts_collection w)) ->
  StronglySorted listing_order (get_alerts w).
Proof.
  intros Hnd. unfold get_alerts.
  apply (stable_sort_stable alert_le alert_le_total alert_le_trans).
  apply StronglySorted_take.
  apply NoDup_StronglySorted in Hnd.
  apply (stable_sort_stable oid_desc oid_desc_total oid_desc_trans) in Hnd.
  eapply StronglySorted_weaken; [|exact Hnd].
  intros a b [H1 H2]. unfold oid_desc in *.
  apply Nat.leb_le in H1.
  destruct (Nat.eq_dec (al_oid a) (al_oid b)) as [He|Hne]; [|lia].
  exfalso. apply H2; [apply Nat.leb_le; lia | exact He].
Qed.

Lemma status_rank_active d :
  (alert_key d).1 = 0%nat <-> al_status d = "Active".
Proof.
  unfold alert_key. cbn [fst].
  destruct (String.eqb_spec (al_status d) "Active"); split; congruence.
Qed.

Lemma status_rank_range d : (alert_key d).1 = 0%nat \/ (alert_key d).1 = 1%nat.
Proof. unfold alert_key. cbn [fst]. destruct (String.eqb _ _); auto. Qed.

Lemma severity_order_other s :
  s ∉ ["Critical"; "High"; "Moderate"; "Low"] -> severity_order s = 4%nat.
Proof.
  intros Hs. unfold severity_order.
  rewrite (not_elem_of_list_to_map_1 _ s); [reflexivity | exact Hs].
Qed.

(** C7.  In the listing, no alert that is not Active precedes an Active
    one; within a status group severity ranks do not decrease, the ranks
    being Critical 0, High 1, Moderate 2, Low 3 and 4 for any other
    string; and within one status and rank the newer alert (the larger
    [_id]) comes first. *)
Theorem alerts_listing_order (w : world) :
  NoDup (map al_oid (alerts_collection w)) ->
  (forall i j a b,
      (i < j)%nat -> get_alerts w !! i = Some a -> get_alerts w !! j = Some b ->
      (al_status b = "Active" -> al_status a = "Active")
      /\ ((al_status a = "Active" <-> al_status b = "Active") ->
          (severity_order (al_severity a) <= severity_order (al_severity b))%nat
          /\ (severity_order (al_severity a) = severity_order (al_severity b) ->
              (al_oid b < al_oid a)%nat)))
  /\ severity_order "Critical" = 0%nat /\ severity_order "High" = 1%nat
  /\ severity_order "Moderate" = 2%nat /\ severity_order "Low" = 3%nat
  /\ (forall s, s ∉ ["Critical"; "High"; "Moderate"; "Low"] ->
        severity_order s = 4%nat).
Proof.
  intros Hnd. split; [|repeat split; try reflexivity; apply severity_order_other].
  intros i j a b Hij Hi Hj.
  pose proof (StronglySorted_lookup _ _ (get_alerts_sorted w Hnd)
                i j a b Hij Hi Hj) as [Hle Htie].
  unfold alert_le in Hle, Htie. rewrite key_le_spec in Hle, Htie.
  pose proof (status_rank_active a) as Ha. pose proof (status_rank_active b) as Hb.
  pose proof (status_rank_range a) as Ra. pose proof (status_rank_range b) as Rb.
  change (severity_order (al_severity a)) with (alert_key a).2.
  change (severity_order (al_severity b)) with (alert_key b).2.
  split.
  - intros Hact. apply Ha. apply Hb in Hact. lia.
  - intros Hsame.
    assert (Hs : (alert_key a).1 = (alert_key b).1).
    { destruct Ra as [Ra|Ra], Rb as [Rb|Rb]; try lia.
      apply Ha, Hsame, Hb in Ra. lia. }
    split; [lia|]. intros Hr. apply Htie. lia.
Qed.

(** The listing shows the alerts with the 100 largest [_id]s. *)
Lemma get_alerts_Permutation (w : world) :
  get_alerts w ≡ₚ take 100 (stable_sort oid_desc (alerts_collection w)).
Proof. unfold get_alerts. apply stable_sort_Permutation. Qed.

(** Three alerts, the oldest resolved: the two Active ones come first,
    the newer of them before the older. *)
Lemma alerts_listing_order_witness :
  exists a b,
    get_alerts three_alerts !! 0%nat = Some a
    /\ get_alerts three_alerts !! 1%nat = Some b
    /\ al_status a = "Active" /\ al_status b = "Active"
    /\ (al_oid a, al_oid b) = (2%nat, 1%nat)
    /\ (al_oid b < al_oid a)%nat.
Proof.
  assert (Hnd : NoDup (map al_oid (alerts_collection three_alerts)))
    by compute_done.
  destruct (alerts_listing_order three_alerts Hnd) as [H _].
  destruct (get_alerts three_alerts !! 0%nat) as [a|] eqn:Ha;
    [|vm_compute in Ha; discriminate Ha].
  destruct (get_alerts three_alerts !! 1%nat) as [b|] eqn:Hb;
    [|vm_compute in Hb; discriminate Hb].
  destruct (H 0%nat 1%nat a b ltac:(lia) Ha Hb) as [_ Hs].
  exists a, b. split; [reflexivity|]. split; [reflexivity|].
  vm_compute in Ha, Hb. injection Ha as <-. injection Hb as <-.
  repeat split; try reflexivity.
  apply Hs; [split; reflexivity | reflexivity].
Defined.

Lemma find_first {A} (p : A -> bool) (l : list A) x :
  find p l = Some x ->
  exists pre post,
    l = pre ++ x :: post /\ p x = true /\ Forall (fun y => p y = false) pre.
Proof.
  induction l as [|y l IH]; [discriminate|]. cbn [find].
  destruct (p y) eqn:Hy.
  - intros [= ->]. now exists [], l.
  - intros Hf. destruct (IH Hf) as (pre & post & -> & Hx & Hpre).
    exists (y :: pre), post. repeat split; [exact Hx | now constructor].
Qed.

(** [update_one] touches the first match and nothing else. *)
Lemma update_one_first {A} (p : A -> bool) (f : A -> A) (l : list A) :
  (update_one p f l = (l, 0%nat) /\ Forall (fun y => p y = false) l)
  \/ exists pre x post,
       l = pre ++ x :: post /\ p x = true
       /\ Forall (fun y => p y = false) pre
       /\ update_one p f l = (pre ++ f x :: post, 1%nat).
Proof.
  induction l as [|y l IH]; [left; now split|]. cbn [update_one].
  destruct (p y) eqn:Hy.
  - right. now exists [], y, l.
  - destruct IH as [[-> Hall] | (pre & x & post & -> & Hx & Hpre & ->)].
    + left. split; [reflexivity | now constructor].
    + right. exists (y :: pre), x, post.
      repeat split; [exact Hx | now constructor].
Qed.

(** [delete_one] removes the first match and nothing else. *)
Lemma delete_one_first {A} (p : A -> bool) (l : list A) :
  (delete_one p l = (l, 0%nat) /\ Forall (fun y => p y = false) l)
  \/ exists pre x post,
       l = pre ++ x :: post /\ p x = true
       /\ Forall (fun y => p y = false) pre
       /\ delete_one p l = (pre ++ post, 1%nat).
Proof.
  induction l as [|y l IH]; [left; now split|]. cbn [delete_one].
  destruct (p y) eqn:Hy.
  - right. now exists [], y, l.
  - destruct IH as [[-> Hall] | (pre & x & post & -> & Hx & Hpre & ->)].
    + left. split; [reflexivity | now constructor].
    + right. exists (y :: pre), x, post.
      repeat split; [exact Hx | now constructor].
Qed.

(** C8 (as amended).  When a required field is missing or empty, the
    request is refused with status 400 and the state is left as it was
    (no record is written).  The error names the first required field,
    in the order type, severity, location, message, that is missing;
    but a body with no key at all is refused as "No JSON received". *)
Theorem create_alert_rejects_missing_field (E : env) (data : alert_form)
    (w : world) :
  (exists field, field ∈ REQUIRED_FIELDS /\ field_missing data field = true) ->
  exists msg,
    create_alert E (Some data) w = (Err 400 msg, w)
    /\ ((fields data = ∅ /\ channels data = None) -> msg = "No JSON received")
    /\ (~ (fields data = ∅ /\ channels data = None) ->
        exists pre field post,
          REQUIRED_FIELDS = pre ++ field :: post
          /\ field_missing data field = true
          /\ Forall (fun f => field_missing data f = false) pre
          /\ msg = "Missing field: " +:+ field).
Proof.
  intros (field & Hin & Hmiss). unfold create_alert.
  destruct (decide (fields data = ∅ /\ channels data = None)) as [He | Hne].
  - exists "No JSON received".
    split; [reflexivity|]. split; [reflexivity | contradiction].
  - destruct (find (field_missing data) REQUIRED_FIELDS) as [f|] eqn:Hf.
    + exists ("Missing field: " +:+ f).
      split; [reflexivity|]. split; [contradiction|].
      intros _. apply find_first in Hf as (pre & post & Hl & Hx & Hpre).
      now exists pre, f, post.
    + apply list_elem_of_In in Hin.
      pose proof (find_none _ _ Hf field Hin). congruence.
Qed.

(** The location is empty: the error names it, and nothing is stored. *)
Lemma create_alert_rejects_missing_field_witness :
  create_alert env_2024 (Some form_no_location) empty_world
  = (Err 400 "Missing field: location", empty_world).
Proof.
  destruct (create_alert_rejects_missing_field env_2024 form_no_location
              empty_world) as (msg & Hc & _ & Hn).
  - exists "location". split; [|reflexivity].
    unfold REQUIRED_FIELDS. rewrite !elem_of_cons. auto.
  - rewrite Hc. destruct Hn as (pre & field & post & Hl & Hm & Hpre & ->).
    + intros [Hf _]. discriminate Hf.
    + do 2 f_equal. f_equal.
      unfold REQUIRED_FIELDS in Hl.
      destruct pre as [|p1 pre]; [injection Hl as <- _; discriminate Hm|].
      injection Hl as <- Hl.
      destruct pre as [|p2 pre]; [injection Hl as <- _; discriminate Hm|].
      injection Hl as <- Hl.
      destruct pre as [|p3 pre]; [now injection Hl as <- _|].
      injection Hl as <- Hl.
      apply Forall_cons in Hpre as [_ Hpre].
      apply Forall_cons in Hpre as [_ Hpre].
      apply Forall_cons in Hpre as [Hloc _]. discriminate Hloc.
Defined.

(** C8, as stated, fails for a body without any key: all four required
    fields are missing, the request is refused, but the error names no
    field. *)
Lemma create_alert_empty_body_counterexample :
  Forall (fun f => field_missing form_empty f = true) REQUIRED_FIELDS
  /\ create_alert env_2024 (Some form_empty) empty_world
     = (Err 400 "No JSON received", empty_world).
Proof.
  split; [|reflexivity].
  unfold REQUIRED_FIELDS. repeat constructor.
Qed.

Lemma has_id_false_iff alert_id d : has_id alert_id d = false <-> al_id d <> alert_id.
Proof. unfold has_id. now destruct (String.eqb_spec (al_id d) alert_id). Qed.

(** C10.  Resolving an id that exists in the collection answers success
    whatever the status of the alert was: the first alert with that id
    gets status "Resolved" and the time of this call as [resolved_at],
    replacing any earlier one; every other record is left as it was. *)
Theorem resolve_alert_any_status (E : env) (alert_id : string) (w : world) :
  (exists d, d ∈ alerts_collection w /\ al_id d = alert_id) ->
  exists pre d post,
    alerts_collection w = pre ++ d :: post
    /\ al_id d = alert_id
    /\ Forall (fun x => al_id x <> alert_id) pre
    /\ (resolve_alert E alert_id w).1 = Ok 200 alert_id
    /\ alerts_collection (resolve_alert E alert_id w).2
       = pre ++ resolved (utcnow_at E (clock_reads w)) d :: post
    /\ al_status (resolved (utcnow_at E (clock_reads w)) d) = "Resolved"
    /\ al_resolved_at (resolved (utcnow_at E (clock_reads w)) d)
       = Some (utcnow_at E (clock_reads w)).
Proof.
  intros (d0 & Hin & Hid). unfold resolve_alert. cbn [utcnow].
  cbn [alerts_collection].
  destruct (update_one_first (has_id alert_id)
              (resolved (utcnow_at E (clock_reads w)))
              (alerts_collection w))
    as [[_ Hall] | (pre & d & post & Hl & Hd & Hpre & Hu)].
  - rewrite Forall_forall in Hall. apply Hall in Hin.
    apply has_id_false_iff in Hin. contradiction.
  - rewrite Hu. cbn [Nat.eqb fst snd set_alerts alerts_collection].
    exists pre, d, post. repeat split; try assumption.
    + unfold has_id in Hd. now apply String.eqb_eq in Hd.
    + eapply Forall_impl; [exact Hpre|]. intros x. apply has_id_false_iff.
Qed.

(** An alert resolved at [t_2024] is resolved again one hour later: the
    answer is a success and [resolved_at] is the later time. *)
Lemma resolve_alert_any_status_witness :
  map al_status (alerts_collection resolved_once) = ["Resolved"]
  /\ map al_resolved_at (alerts_collection resolved_once)
     = [Some t_2024]
  /\ (resolve_alert env_2024_later "AL-2024-001" resolved_once).1
     = Ok 200 "AL-2024-001"
  /\ map al_resolved_at
       (alerts_collection
          (resolve_alert env_2024_later "AL-2024-001" resolved_once).2)
     = [Some (t_2024 + 3600000000)].
Proof.
  destruct (resolve_alert_any_status env_2024_later "AL-2024-001" resolved_once)
    as (pre & d & post & Hl & _ & _ & Hr & Hc & _).
  - eexists. split; [apply list_elem_of_here | reflexivity].
  - split; [reflexivity|]. split; [reflexivity|]. split; [exact Hr|].
    rewrite Hc. vm_compute in Hl.
    destruct pre as [|x pre]; [|destruct pre; discriminate Hl].
    destruct post; [|discriminate Hl]. injection Hl as <-. reflexivity.
Defined.


(** ** The [_id] values of the alerts stay distinct *)

Lemma is_on_cooldown_alerts (E : env) T w :
  alerts_collection (_is_on_cooldown E T w).2 = alerts_collection w
  /\ next_oid (_is_on_cooldown E T w).2 = next_oid w.
Proof.
  unfold _is_on_cooldown.
  destruct (default 30 (SMS_COOLDOWN_MINUTES !! T) =? 0); now cbn.
Qed.

Lemma send_sms_alert_alerts (E : env) T message rcpts w :
  alerts_collection (send_sms_alert E T message rcpts w).2 = alerts_collection w
  /\ (next_oid w <= next_oid (send_sms_alert E T message rcpts w).2)%nat.
Proof.
  unfold send_sms_alert.
  pose proof (is_on_cooldown_alerts E T w) as [Ha Hn].
  destruct (_is_on_cooldown E T w) as [cooling w1]. cbn [snd] in Ha, Hn.
  destruct cooling; [cbn [snd]; rewrite Ha, Hn; auto|].
  destruct (send_loop_extends E message (default (ALERT_RECIPIENTS E) rcpts)
              [] None w1) as [cs Hext].
  destruct (send_loop E message (default (ALERT_RECIPIENTS E) rcpts) [] None w1)
    as [[e | [results last]] w2]; cbn [snd] in Hext; subst w2.
  - cbn. rewrite Ha, Hn. auto.
  - destruct (str_truthy (default "" last)); cbn; rewrite Ha, Hn; auto.
Qed.

Lemma foldl_send_alerts (E : env) (cs : list candidate) : forall w,
  alerts_collection
    (foldl (fun w c => (send_sms_alert E c.1 c.2 None w).2) w cs)
  = alerts_collection w
  /\ (next_oid w
      <= next_oid
           (foldl (fun w c => (send_sms_alert E c.1 c.2 None w).2) w cs))%nat.
Proof.
  induction cs as [|c cs IH]; intros w; cbn [foldl]; [auto|].
  destruct (IH (send_sms_alert E c.1 c.2 None w).2) as [Ha Hn].
  destruct (send_sms_alert_alerts E c.1 c.2 None w) as [Ha' Hn'].
  rewrite Ha, Ha'. split; [reflexivity | lia].
Qed.

Lemma alerts_wf_weaken w w' :
  alerts_collection w' = alerts_collection w ->
  (next_oid w <= next_oid w')%nat -> alerts_wf w -> alerts_wf w'.
Proof.
  intros Ha Hn [Hnd Hlt]. unfold alerts_wf. rewrite Ha. split; [exact Hnd|].
  eapply Forall_impl; [exact Hlt|]. cbn. intros d Hd. lia.
Qed.

Lemma update_one_map {A B} (g : A -> B) (p : A -> bool) (f : A -> A) l :
  (forall x, g (f x) = g x) -> map g (update_one p f l).1 = map g l.
Proof.
  intros Hg. induction l as [|x l IH]; [reflexivity|]. cbn [update_one].
  destruct (p x); [cbn; now rewrite Hg|].
  destruct (update_one p f l) as [l' n]. cbn in *. now rewrite IH.
Qed.

Lemma delete_one_sublist {A} (p : A -> bool) l : sublist (delete_one p l).1 l.
Proof.
  induction l as [|x l IH]; [constructor|]. cbn [delete_one].
  destruct (p x); [now apply sublist_cons|].
  destruct (delete_one p l) as [l' n]. cbn in *. now apply sublist_skip.
Qed.

Lemma handle_alerts_wf (E : env) (w : world) (r : request) :
  alerts_wf w -> alerts_wf (handle E w r).
Proof.
  intros Hwf. destruct r as [body | body | alert_id | alert_id | ].
  - (* sensor data *)
    cbn [handle]. unfold receive_sensor_data.
    destruct body as [data|]; [|exact Hwf].
    destruct (decide (data = ∅)); [exact Hwf|].
    unfold check_and_send_sensor_sms. world_simpl.
    rewrite sensor_checks_calls.
    match goal with
    | |- alerts_wf (foldl _ ?w0 ?cs) =>
        destruct (foldl_send_alerts E cs w0) as [Ha Hn];
        apply (alerts_wf_weaken w); world_simpl;
          [exact Ha | lia | exact Hwf]
    end.
  - (* create *)
    cbn [handle]. unfold create_alert.
    destruct body as [data|]; [|exact Hwf].
    destruct (decide _); [exact Hwf|].
    destruct (find _ _); [exact Hwf|].
    world_simpl.
    match goal with
    | |- alerts_wf (if _ then let '(_, _) := send_sms_alert E ?T ?m ?r ?w0 in _
                    else (_, ?w1)).2 =>
        assert (Hw0 : alerts_wf w0)
    end.
    { destruct Hwf as [Hnd Hlt]. split; world_simpl.
      - rewrite map_app. cbn [map al_oid]. apply NoDup_app. split; [exact Hnd|].
        split; [|apply NoDup_singleton].
        intros x Hx Hx'. apply list_elem_of_singleton in Hx'. subst x.
        apply list_elem_of_fmap in Hx as (d & Hd & Hin).
        rewrite Forall_forall in Hlt. apply Hlt in Hin. lia.
      - apply Forall_app. split.
        + eapply Forall_impl; [exact Hlt|]. cbn. intros d Hd. lia.
        + apply Forall_singleton. cbn. lia. }
    destruct (bool_decide _); [|exact Hw0].
    match goal with
    | |- alerts_wf (let '(_, _) := send_sms_alert E ?T ?m ?r ?w0 in _).2 =>
        destruct (send_sms_alert_alerts E T m r w0) as [Ha Hn];
        destruct (send_sms_alert E T m r w0) as [res w2]
    end.
    cbn [snd].
    refine (alerts_wf_weaken _ _ _ _ Hw0); [exact Ha | exact Hn].
  - (* resolve *)
    cbn [handle]. unfold resolve_alert. world_simpl.
    pose proof (update_one_map al_oid (has_id alert_id)
                  (resolved (utcnow_at E (clock_reads w)))
                  (alerts_collection w) (fun x => eq_refl)) as Hm.
    destruct (update_one _ _ _) as [docs n]. cbn [fst] in Hm.
    assert (Hw : alerts_wf (set_alerts docs w)).
    { destruct Hwf as [Hnd Hlt]. split; world_simpl.
      - now rewrite Hm.
      - apply (List.Forall_map al_oid (fun i => (i < next_oid w)%nat)).
        rewrite Hm. now apply List.Forall_map. }
    destruct (n =? 0)%nat; cbn [snd]; apply (alerts_wf_weaken (set_alerts docs w));
      auto.
  - (* delete *)
    cbn [handle]. unfold delete_alert.
    pose proof (delete_one_sublist (has_id alert_id) (alerts_collection w)) as Hs.
    destruct (delete_one _ _) as [docs n]. cbn [fst] in Hs.
    assert (Hw : alerts_wf (set_alerts docs w)).
    { destruct Hwf as [Hnd Hlt]. split; world_simpl.
      - eapply sublist_NoDup; [exact Hnd|].
        now apply (fmap_sublist al_oid).
      - rewrite Forall_forall in *. intros d Hd.
        apply Hlt. eapply elem_of_sublist; [exact Hd | exact Hs]. }
    destruct (n =? 0)%nat; exact Hw.
  - exact Hwf.
Qed.

(** Every state the requests lead to from the empty database has
    distinct [_id]s, so the listing order holds in all of them. *)
Lemma reachable_alerts_wf (E : env) (rs : list request) :
  alerts_wf (foldl (handle E) empty_world rs).
Proof.
  assert (H0 : alerts_wf empty_world) by (split; constructor).
  revert H0. generalize empty_world.
  induction rs as [|r rs IH]; intros w Hw; [exact Hw|].
  cbn [foldl]. now apply IH, handle_alerts_wf.
Qed.

(** C9.  The id of a new alert is "AL-", the year, "-" and the number of
    stored alerts plus one, padded to three digits; so ids can repeat:
    two alerts are created, the first is deleted and a third is created,
    the count is 1 again and the new alert gets the id of the second
    one, which still exists.  Resolving that id then changes one of the
    two records only, and deleting it removes one of them only. *)
Theorem alert_ids_collide :
  (forall E data w,
      ~ (fields data = ∅ /\ channels data = None) ->
      find (field_missing data) REQUIRED_FIELDS = None ->
      exists a,
        last (alerts_collection (create_alert E (Some data) w).2) = Some a
        /\ al_id a
           = "AL-" +:+ str_of_int (dt_year (utcnow_at E (clock_reads w)))
             +:+ "-"
             +:+ zfill 3
                   (str_of_int (Z.of_nat (length (alerts_collection w)) + 1)))
  /\ map al_id (alerts_collection two_created) = ["AL-2024-001"; "AL-2024-002"]
  /\ (delete_alert "AL-2024-001" two_created).1 = Ok 200 ()
  /\ map al_id (alerts_collection after_delete_create)
     = ["AL-2024-002"; "AL-2024-002"]
  /\ map al_oid (alerts_collection after_delete_create) = [1%nat; 2%nat]
  /\ map (fun d => (al_oid d, al_status d))
       (alerts_collection
          (resolve_alert env_2024 "AL-2024-002" after_delete_create).2)
     = [(1%nat, "Resolved"); (2%nat, "Active")]
  /\ map (fun d => (al_oid d, al_id d))
       (alerts_collection (delete_alert "AL-2024-002" after_delete_create).2)
     = [(2%nat, "AL-2024-002")].
Proof.
  split; [|vm_compute; repeat split; reflexivity].
  intros E data w Hne Hf. unfold create_alert.
  destruct (decide _) as [He|_]; [contradiction|]. rewrite Hf. world_simpl.
  eexists. split.
  - destruct (bool_decide _).
    + match goal with
      | |- context [send_sms_alert E ?T ?m ?r ?w0] =>
          destruct (send_sms_alert_alerts E T m r w0) as [Ha _];
          destruct (send_sms_alert E T m r w0) as [res w2]
      end.
      world_simpl. rewrite Ha. apply last_snoc.
    + world_simpl. apply last_snoc.
  - reflexivity.
Qed.

(** The first alert of 2024 is "AL-2024-001". *)
Lemma alert_ids_collide_witness :
  exists a,
    last (alerts_collection
            (create_alert env_2024 (Some form_flood) empty_world).2) = Some a
    /\ al_id a = "AL-2024-001".
Proof.
  destruct (proj1 alert_ids_collide env_2024 form_flood empty_world)
    as (a & Hl & Hid).
  - intros [Hf _]. discriminate Hf.
  - reflexivity.
  - exists a. split; [exact Hl|]. rewrite Hid. reflexivity.
Defined.

(** In every state the requests lead to, the listing is in order. *)
Lemma reachable_listing_sorted (E : env) (rs : list request) :
  StronglySorted listing_order (get_alerts (foldl (handle E) empty_world rs)).
Proof. apply get_alerts_sorted, reachable_alerts_wf. Qed.
